(** * Manifest generator of the algebytestore plugin collection

    A shallow embedding of [generate_plugins_json.py]: the script lists the
    plugin directory, reads every [.py] file, extracts four metadata
    constants with a regular expression, and writes a JSON manifest.

    Python strings are sequences of Unicode code points; a text is modelled
    as a list of code points (numbers in [N]).

    The model covers lines 1 to 38 of the script. Line 40 of the file is a
    stray line of prose and not a statement of the program. *)

From Stdlib Require Import NArith ZArith Lia String Ascii.
From stdpp Require Import base list gmap.

Local Open Scope N_scope.
Local Open Scope list_scope.

(** ** Text *)

Abbreviation char := N.
Abbreviation text := (list N).

(** The code points of an ASCII literal. *)
Definition str (s : string) : text :=
  map N_of_ascii (list_ascii_of_string s).

Definition NEWLINE : char := 10.
Definition DQUOTE : char := 34.
Definition SQUOTE : char := 39.

(** [s.startswith(p)], returning what follows the prefix. *)
Fixpoint strip_prefix (p s : text) : option text :=
  match p with
  | [] => Some s
  | a :: p' =>
      match s with
      | [] => None
      | b :: s' => if a =? b then strip_prefix p' s' else None
      end
  end.

Definition startswith (s p : text) : bool :=
  match strip_prefix p s with Some _ => true | None => false end.

(** [s.endswith(p)]. *)
Definition endswith (s p : text) : bool :=
  startswith (rev s) (rev p).

(** ** Regular expressions, as the [re] module runs them

    A backtracking matcher in continuation-passing style: alternatives are
    tried left to right, [r*] is greedy, [r+?] is lazy, and a group records
    the text its body consumed. *)

Inductive regex :=
| Eps
| Lit (c : char)
| Cls (p : char -> bool)
| Seq (r1 r2 : regex)
| Alt (r1 r2 : regex)
| Star (r : regex)
| PlusLazy (r : regex)
| Group (i : nat) (r : regex).

Fixpoint lits (l : text) : regex :=
  match l with
  | [] => Eps
  | c :: l' => Seq (Lit c) (lits l')
  end.

Abbreviation groups := (gmap nat text).

(** A matcher takes the text left, the groups so far and what to do after
    it; [None] makes the caller try its next choice. *)
Definition matcher (R : Type) : Type :=
  text -> groups -> (text -> groups -> option R) -> option R.

(** Greedy [r*]: one more round of [m] first, the rest of the pattern
    after that; a round that consumes nothing ends the loop. *)
Fixpoint star_loop {R : Type} (m : matcher R) (k : text -> groups -> option R)
    (fuel : nat) (s : text) (g : groups) : option R :=
  match fuel with
  | O => k s g
  | S fuel' =>
      match m s g (fun s' g' =>
              if (length s' <? length s)%nat
              then star_loop m k fuel' s' g' else None) with
      | Some x => Some x
      | None => k s g
      end
  end.

(** Lazy [r+?]: one round of [m], then the rest of the pattern first and
    one more round only where that fails. *)
Fixpoint plus_loop {R : Type} (m : matcher R) (k : text -> groups -> option R)
    (fuel : nat) (s : text) (g : groups) : option R :=
  m s g (fun s' g' =>
    match k s' g' with
    | Some x => Some x
    | None =>
        match fuel with
        | O => None
        | S fuel' =>
            if (length s' <? length s)%nat
            then plus_loop m k fuel' s' g' else None
        end
    end).

Fixpoint rmatch {R : Type} (r : regex) (s : text) (g : groups)
    (k : text -> groups -> option R) {struct r} : option R :=
  match r with
  | Eps => k s g
  | Lit c =>
      match s with
      | x :: s' => if c =? x then k s' g else None
      | [] => None
      end
  | Cls p =>
      match s with
      | x :: s' => if p x then k s' g else None
      | [] => None
      end
  | Seq r1 r2 => rmatch r1 s g (fun s' g' => rmatch r2 s' g' k)
  | Alt r1 r2 =>
      match rmatch r1 s g k with
      | Some x => Some x
      | None => rmatch r2 s g k
      end
  | Star r1 =>
      star_loop (fun s' g' k' => rmatch r1 s' g' k') k (length s) s g
  | PlusLazy r1 =>
      plus_loop (fun s' g' k' => rmatch r1 s' g' k') k (length s) s g
  | Group i r1 =>
      rmatch r1 s g (fun s' g' =>
        k s' (<[i := take (length s - length s') s]> g'))
  end.

(** [\s] on a [str] pattern: the code points Python calls whitespace. *)
Definition is_space (c : char) : bool :=
  ((9 <=? c) && (c <=? 13)) || ((28 <=? c) && (c <=? 32))
  || (c =? 133) || (c =? 160) || (c =? 5760)
  || ((8192 <=? c) && (c <=? 8202))
  || (c =? 8232) || (c =? 8233) || (c =? 8239) || (c =? 8287)
  || (c =? 12288).

(** The class of the two quote characters, double and single. *)
Definition is_quote (c : char) : bool := (c =? DQUOTE) || (c =? SQUOTE).

(** [.] without DOTALL: anything but a line feed. *)
Definition is_dot (c : char) : bool := negb (c =? NEWLINE).

Definition F_NAME : text := str "name".
Definition F_AUTHOR : text := str "author".
Definition F_VERSION : text := str "version".
Definition F_DESCRIPTION : text := str "description".

(** The pattern [__plugin_(name|author|version|description)__\s*=\s*Q(.+?)Q],
    where [Q] stands for the class of the two quote characters. *)
Definition metadata_pattern : regex :=
  Seq (lits (str "__plugin_"))
  (Seq (Group 1 (Alt (lits F_NAME) (Alt (lits F_AUTHOR)
                   (Alt (lits F_VERSION) (lits F_DESCRIPTION)))))
  (Seq (lits (str "__"))
  (Seq (Star (Cls is_space))
  (Seq (Lit 61)
  (Seq (Star (Cls is_space))
  (Seq (Cls is_quote)
  (Seq (Group 2 (PlusLazy (Cls is_dot)))
       (Cls is_quote)))))))).

(** One attempt of the pattern at the start of [s]: the two groups and the
    text after the match. *)
Definition group (i : nat) (g : groups) : text := default [] (g !! i).

Definition match_at (r : regex) (s : text) : option (text * text * text) :=
  rmatch r s ∅ (fun s' g => Some (group 1 g, group 2 g, s')).

(** [re.findall(r, s)] for a pattern with two groups: scan from the left,
    report the groups of each match and resume after it; where the pattern
    does not match, move one character on. A match that consumes nothing,
    which the pattern of the script never has, moves the scan one character
    on as well. *)
Fixpoint findall_from (fuel : nat) (r : regex) (s : text) : list (text * text) :=
  match fuel with
  | O => []
  | S fuel' =>
      match match_at r s with
      | Some (k, v, s') =>
          (k, v) :: (if (length s' <? length s)%nat
                     then findall_from fuel' r s'
                     else match s' with
                          | [] => []
                          | _ :: t => findall_from fuel' r t
                          end)
      | None =>
          match s with
          | [] => []
          | _ :: t => findall_from fuel' r t
          end
      end
  end.

Definition findall (r : regex) (s : text) : list (text * text) :=
  findall_from (S (length s)) r s.

(** ** Strings and dictionaries *)

(** [s.find(sub)]: the index of the first occurrence, if there is one. *)
Fixpoint find (s sub : text) : option nat :=
  if startswith s sub then Some O
  else match s with
       | [] => None
       | _ :: t => S <$> find t sub
       end.

(** [s.replace(old, new)] for a non-empty [old]: every occurrence met from
    the left is replaced, and the search resumes after it. [skip] counts the
    characters of the occurrence still to be dropped. *)
Fixpoint replace_aux (old new : text) (skip : nat) (s : text) : text :=
  match s with
  | [] => []
  | c :: t =>
      match skip with
      | S n => replace_aux old new n t
      | O =>
          if startswith s old
          then new ++ replace_aux old new (length old - 1) t
          else c :: replace_aux old new O t
      end
  end.

Definition replace (s old new : text) : text := replace_aux old new O s.

(** [dict(pairs)]: the pairs are stored from the left, a later pair with
    the same key overwrites the earlier value. *)
Definition dict (pairs : list (text * text)) : gmap text text :=
  foldl (fun d kv => <[kv.1 := kv.2]> d) ∅ pairs.

(** [k in d] *)
Definition contains (d : gmap text text) (k : text) : bool :=
  bool_decide (is_Some (d !! k)).

(** [str(n)] for a length. *)
Fixpoint digits_of (fuel : nat) (n : N) (acc : text) : text :=
  match fuel with
  | O => acc
  | S fuel' =>
      let acc' := (48 + n mod 10) :: acc in
      if n / 10 =? 0 then acc' else digits_of fuel' (n / 10) acc'
  end.

Definition repr_nat (n : nat) : text := digits_of (S n) (N.of_nat n) [].

(** ** The world the script runs in *)

(** What a run can raise. The model tells the failing operation, not the
    class that Python gives the exception: [FileNotFoundError d] stands for
    a failed listing of [d] (a directory that is missing, is not a
    directory, or may not be listed), [OSError path] for a failed opening
    or reading of the file at [path] (a file that cannot be opened, or that
    is not UTF-8), and [KeyError key] for a key missing from a
    dictionary. *)
Inductive exn :=
| FileNotFoundError (path : text)
| OSError (path : text)
| KeyError (key : text).

(** [dirs] gives the entries of each directory that can be listed, in
    enumeration order; [files] gives the decoded text of each file that can
    be opened and read as UTF-8; a path in [locked] cannot be opened for
    writing. *)
Record FS := {
  dirs : gmap text (list text);
  files : gmap text text;
  locked : gset text
}.

Record world := { fs : FS; stdout : text }.

Inductive result (A : Type) :=
| Ok (a : A)
| Raise (e : exn).
Arguments Ok {A} a.
Arguments Raise {A} e.

(** A computation reads and updates the world, and returns or raises. *)
Definition M (A : Type) : Type := world -> result A * world.

Definition ret {A} (a : A) : M A := fun w => (Ok a, w).
Definition raise {A} (e : exn) : M A := fun w => (Raise e, w).
Definition bind {A B} (m : M A) (f : A -> M B) : M B :=
  fun w => match m w with
           | (Ok a, w') => f a w'
           | (Raise e, w') => (Raise e, w')
           end.

#[global] Instance M_ret : MRet M := @ret.
#[global] Instance M_bind : MBind M := fun A B f m => bind m f.

(** [os.listdir(d)] *)
Definition listdir (d : text) : M (list text) :=
  fun w => match dirs (fs w) !! d with
           | Some names => (Ok names, w)
           | None => (Raise (FileNotFoundError d), w)
           end.

(** [open(path, "r", encoding="utf-8")] followed by [f.read()] *)
Definition read_text (path : text) : M text :=
  fun w => match files (fs w) !! path with
           | Some content => (Ok content, w)
           | None => (Raise (OSError path), w)
           end.

(** [open(path, "w", encoding="utf-8")] followed by one write of [content].
    The listing of the directory that holds the file is outside the model:
    [dirs] is consulted for the plugin directory only. *)
Definition write_text (path content : text) : M unit :=
  fun w => if bool_decide (path ∈ locked (fs w))
           then (Raise (OSError path), w)
           else (Ok tt, {| fs := {| dirs := dirs (fs w);
                                    files := <[path := content]> (files (fs w));
                                    locked := locked (fs w) |};
                           stdout := stdout w |}).

(** [print(line)], on a standard output that accepts the line. *)
Definition print (line : text) : M unit :=
  fun w => (Ok tt, {| fs := fs w; stdout := stdout w ++ line ++ [NEWLINE] |}).

(** [d[k]] *)
Definition getitem (d : gmap text text) (k : text) : M text :=
  match d !! k with
  | Some v => ret v
  | None => raise (KeyError k)
  end.

(** [os.path.join(a, b)] on POSIX *)
Definition path_join (a b : text) : text :=
  if startswith b (str "/") then b
  else if bool_decide (a = []) || endswith a (str "/") then a ++ b
  else a ++ str "/" ++ b.

(** The [for] loop over a list, threading the loop's variable. *)
Fixpoint for_each {A S : Type} (l : list A) (body : A -> S -> M S) (acc : S) : M S :=
  match l with
  | [] => ret acc
  | x :: l' => acc' ← body x acc; for_each l' body acc'
  end.

(** ** JSON, as the [json] module writes and reads it *)

#[local] Unset Elimination Schemes.
Inductive json :=
| JStr (s : text)
| JArr (items : list json)
| JObj (members : list (text * json)).
#[local] Set Elimination Schemes.

Definition hex_digit (d : N) : char :=
  if d <? 10 then 48 + d else 87 + d.

(** Four hexadecimal digits, in lower case. *)
Definition hex4 (n : N) : text :=
  [hex_digit (N.land (N.shiftr n 12) 15);
   hex_digit (N.land (N.shiftr n 8) 15);
   hex_digit (N.land (N.shiftr n 4) 15); hex_digit (N.land n 15)].

(** [\uXXXX] *)
Definition escape_u (n : N) : text := 92 :: 117 :: hex4 n.

(** The two surrogates for a character beyond the sixteen-bit range. *)
Definition high_of (c : char) : N :=
  N.lor 55296 (N.land (N.shiftr (c - 65536) 10) 1023).

Definition low_of (c : char) : N :=
  N.lor 56320 (N.land (c - 65536) 1023).

(** One character under [ensure_ascii=True]. *)
Definition escape_char (c : char) : text :=
  if c =? 34 then [92; 34]
  else if c =? 92 then [92; 92]
  else if c =? 10 then [92; 110]
  else if c =? 13 then [92; 114]
  else if c =? 9 then [92; 116]
  else if c =? 8 then [92; 98]
  else if c =? 12 then [92; 102]
  else if (32 <=? c) && (c <=? 126) then [c]
  else if c <? 65536 then escape_u c
  else escape_u (high_of c) ++ escape_u (low_of c).

Definition encode_basestring_ascii (s : text) : text :=
  DQUOTE :: flat_map escape_char s ++ [DQUOTE].

(** A line feed and [level] steps of indentation, two spaces each. *)
Definition newline_indent (level : nat) : text :=
  NEWLINE :: repeat 32 (2 * level).

(** [json.dumps(v, indent=2)], at nesting depth [level]. *)
Fixpoint dumps (level : nat) (v : json) : text :=
  match v with
  | JStr s => encode_basestring_ascii s
  | JArr [] => str "[]"
  | JArr (x :: xs) =>
      str "[" ++ newline_indent (S level) ++ dumps (S level) x
      ++ (fix rest (l : list json) : text :=
            match l with
            | [] => []
            | y :: l' =>
                str "," ++ newline_indent (S level) ++ dumps (S level) y
                ++ rest l'
            end) xs
      ++ newline_indent level ++ str "]"
  | JObj [] => str "{}"
  | JObj ((k, x) :: kvs) =>
      str "{" ++ newline_indent (S level)
      ++ encode_basestring_ascii k ++ str ": " ++ dumps (S level) x
      ++ (fix rest (l : list (text * json)) : text :=
            match l with
            | [] => []
            | (k', y) :: l' =>
                str "," ++ newline_indent (S level)
                ++ encode_basestring_ascii k' ++ str ": " ++ dumps (S level) y
                ++ rest l'
            end) kvs
      ++ newline_indent level ++ str "}"
  end.

(** Reading JSON back: [json.loads], restricted to the values the script
    writes (strings, arrays and objects; numbers and the literals do not
    occur and are refused). An object is returned as its list of members in
    the order read. *)

Definition is_json_ws (c : char) : bool :=
  (c =? 32) || (c =? 9) || (c =? 10) || (c =? 13).

Fixpoint skip_ws (s : text) : text :=
  match s with
  | c :: t => if is_json_ws c then skip_ws t else s
  | [] => []
  end.

Definition hex_val (c : char) : option N :=
  if (48 <=? c) && (c <=? 57) then Some (c - 48)
  else if (97 <=? c) && (c <=? 102) then Some (c - 87)
  else if (65 <=? c) && (c <=? 70) then Some (c - 55)
  else None.

(** The four hexadecimal digits after [\u]. *)
Definition decode_uXXXX (s : text) : option (N * text) :=
  match s with
  | a :: b :: c :: d :: rest =>
      h1 ← hex_val a; h2 ← hex_val b; h3 ← hex_val c; h4 ← hex_val d;
      Some (((h1 * 16 + h2) * 16 + h3) * 16 + h4, rest)
  | _ => None
  end.

Definition is_high_surrogate (n : N) : bool := (55296 <=? n) && (n <=? 56319).
Definition is_low_surrogate (n : N) : bool := (56320 <=? n) && (n <=? 57343).

(** The character a one-letter escape stands for. *)
Definition unescape (e : char) : option char :=
  if e =? 34 then Some 34
  else if e =? 92 then Some 92
  else if e =? 47 then Some 47
  else if e =? 98 then Some 8
  else if e =? 102 then Some 12
  else if e =? 110 then Some 10
  else if e =? 114 then Some 13
  else if e =? 116 then Some 9
  else None.

(** The character two surrogate escapes stand for. *)
Definition combine_surrogates (uni uni2 : N) : char :=
  65536 + N.lor (N.shiftl (uni - 55296) 10) (uni2 - 56320).

(** The body of a string, after its opening quote, up to the closing one. *)
Fixpoint scanstring (fuel : nat) (s : text) : option (text * text) :=
  match fuel with
  | O => None
  | S n =>
      match s with
      | [] => None
      | c :: t =>
          if c =? 34 then Some ([], t)
          else if c =? 92 then
            match t with
            | [] => None
            | e :: t' =>
                if e =? 117 then
                  '(uni, t2) ← decode_uXXXX t';
                  if is_high_surrogate uni && startswith t2 [92; 117] then
                    '(uni2, t4) ← decode_uXXXX (drop 2 t2);
                    if is_low_surrogate uni2 then
                      '(v, r) ← scanstring n t4;
                      Some (combine_surrogates uni uni2 :: v, r)
                    else
                      '(v, r) ← scanstring n t2; Some (uni :: v, r)
                  else
                    '(v, r) ← scanstring n t2; Some (uni :: v, r)
                else
                  x ← unescape e;
                  '(v, r) ← scanstring n t'; Some (x :: v, r)
            end
          else if c <? 32 then None
          else '(v, r) ← scanstring n t; Some (c :: v, r)
      end
  end.

Fixpoint parse_value (fuel : nat) (s : text) : option (json * text) :=
  match fuel with
  | O => None
  | S n =>
      match s with
      | [] => None
      | c :: t =>
          if c =? 34 then
            '(v, r) ← scanstring (length t) t; Some (JStr v, r)
          else if c =? 91 then
            match skip_ws t with
            | [] => None
            | c' :: t' =>
                if c' =? 93 then Some (JArr [], t')
                else '(l, r) ← parse_items n (c' :: t'); Some (JArr l, r)
            end
          else if c =? 123 then
            match skip_ws t with
            | [] => None
            | c' :: t' =>
                if c' =? 125 then Some (JObj [], t')
                else if c' =? 34 then
                  '(l, r) ← parse_members n t'; Some (JObj l, r)
                else None
            end
          else None
      end
  end
with parse_items (fuel : nat) (s : text) : option (list json * text) :=
  match fuel with
  | O => None
  | S n =>
      '(v, r) ← parse_value n s;
      match skip_ws r with
      | [] => None
      | c :: t =>
          if c =? 93 then Some ([v], t)
          else if c =? 44 then
            '(l, r') ← parse_items n (skip_ws t); Some (v :: l, r')
          else None
      end
  end
with parse_members (fuel : nat) (s : text) : option (list (text * json) * text) :=
  match fuel with
  | O => None
  | S n =>
      '(k, r) ← scanstring (length s) s;
      match skip_ws r with
      | [] => None
      | c :: t =>
          if c =? 58 then
            '(v, r') ← parse_value n (skip_ws t);
            match skip_ws r' with
            | [] => None
            | c' :: t' =>
                if c' =? 125 then Some ([(k, v)], t')
                else if c' =? 44 then
                  match skip_ws t' with
                  | [] => None
                  | q :: t'' =>
                      if q =? 34 then
                        '(l, r'') ← parse_members n t''; Some ((k, v) :: l, r'')
                      else None
                  end
                else None
            end
          else None
      end
  end.

(** [json.loads(s)]: one value, white space around it, nothing else. *)
Definition loads (s : text) : option json :=
  '(v, r) ← parse_value (S (length s)) (skip_ws s);
  match skip_ws r with
  | [] => Some v
  | _ :: _ => None
  end.

(** What a string is after it was written and read back: a character
    beyond the sixteen-bit range is written as a pair of surrogate escapes
    and read as one character again, and so is a high surrogate that stands
    before a low one in the text. *)
Definition read_back_char (c : char) : char :=
  if c <? 65536 then c
  else combine_surrogates (high_of c) (low_of c).

Fixpoint read_back (s : text) : text :=
  match s with
  | [] => []
  | c :: t =>
      match t with
      | c2 :: s2 =>
          if is_high_surrogate c && is_low_surrogate c2
          then combine_surrogates c c2 :: read_back s2
          else read_back_char c :: read_back t
      | [] => [read_back_char c]
      end
  end.

(** A text as UTF-8 decoding yields it: code points up to U+10FFFF, no
    high surrogate among them. *)
Definition scalar_text (s : text) : bool :=
  forallb (fun c => (c <? 1114112) && negb (is_high_surrogate c)) s.

(** The strings of a value, each changed by [f]. *)
Fixpoint json_map (f : text -> text) (v : json) : json :=
  match v with
  | JStr s => JStr (f s)
  | JArr items => JArr (map (json_map f) items)
  | JObj members =>
      JObj (map (fun kv => (f (fst kv), json_map f (snd kv))) members)
  end.

(** What follows the first element of an array, and the first member of
    an object, in [dumps]. *)
Definition dumps_items (level : nat) (l : list json) : text :=
  flat_map (fun y => str "," ++ newline_indent level ++ dumps level y) l.

Definition dumps_members (level : nat) (l : list (text * json)) : text :=
  flat_map (fun kv => str "," ++ newline_indent level
                      ++ encode_basestring_ascii (fst kv) ++ str ": "
                      ++ dumps level (snd kv)) l.

(** The four ways a character is written. *)
Inductive escape_shape (c : char) : text → Prop :=
| shape_letter e :
    (e =? 117) = false → unescape e = Some c → c < 128 →
    escape_shape c [92; e]
| shape_plain :
    (c =? 34) = false → (c =? 92) = false → (c <? 32) = false → c < 128 →
    escape_shape c [c]
| shape_u : c < 65536 → escape_shape c (escape_u c)
| shape_pair : 65536 ≤ c → escape_shape c (escape_u (high_of c) ++ escape_u (low_of c)).

(** A value is read back from what [dumps] wrote for it. *)
Definition reads_back (v : json) : Prop :=
  ∀ level rest fuel,
    (length (dumps level v) ≤ fuel)%nat →
    parse_value fuel (dumps level v ++ rest)
    = Some (json_map read_back v, rest).

(** ** The script *)

Definition PLUGIN_DIR : text := str "plugins".
Definition ICON_DIR : text := str "icons".
Definition OUTPUT_FILE : text := str "plugins.json".

Definition BASE_URL : text :=
  str "https://raw.githubusercontent.com/AidenZaire/algebytestore/main/".

Definition REQUIRED : list text := [F_NAME; F_AUTHOR; F_VERSION; F_DESCRIPTION].

(** One entry of [plugins_data]. *)
Record plugin := {
  name : text;
  author : text;
  version : text;
  description : text;
  icon_url : text;
  download_url : text
}.

Definition icon_file_of (filename : text) : text :=
  replace filename (str ".py") (str ".png").

Definition icon_url_of (filename : text) : text :=
  BASE_URL ++ ICON_DIR ++ str "/" ++ icon_file_of filename.

Definition download_url_of (filename : text) : text :=
  BASE_URL ++ PLUGIN_DIR ++ str "/" ++ filename.

Definition meta_matches_of (content : text) : gmap text text :=
  dict (findall metadata_pattern content).

(** The body of the loop for one directory entry. *)
Definition process_file (filename : text) (plugins_data : list plugin)
    : M (list plugin) :=
  if endswith filename (str ".py") then
    let plugin_path := path_join PLUGIN_DIR filename in
    content ← read_text plugin_path;
    let meta_matches := meta_matches_of content in
    if forallb (contains meta_matches) REQUIRED then
      n ← getitem meta_matches F_NAME;
      a ← getitem meta_matches F_AUTHOR;
      v ← getitem meta_matches F_VERSION;
      d ← getitem meta_matches F_DESCRIPTION;
      ret (plugins_data ++ [ {| name := n; author := a; version := v;
                                description := d;
                                icon_url := icon_url_of filename;
                                download_url := download_url_of filename |} ])
    else ret plugins_data
  else ret plugins_data.

Definition plugin_json (p : plugin) : json :=
  JObj [(str "name", JStr (name p)); (str "author", JStr (author p));
        (str "version", JStr (version p));
        (str "description", JStr (description p));
        (str "icon_url", JStr (icon_url p));
        (str "download_url", JStr (download_url p))].

Definition manifest_json (plugins_data : list plugin) : json :=
  JArr (map plugin_json plugins_data).

(** The line the script prints; it opens with the check mark U+2705. *)
Definition summary (count : nat) : text :=
  [9989] ++ str " Generated " ++ OUTPUT_FILE ++ str " with "
  ++ repr_nat count ++ str " plugins.".

Definition main : M unit :=
  names ← listdir PLUGIN_DIR;
  plugins_data ← for_each names process_file [];
  write_text OUTPUT_FILE (dumps 0 (manifest_json plugins_data));;
  print (summary (length plugins_data)).

(** ** The pattern, described directly

    What one attempt of [metadata_pattern] does, written as a plain scan of
    the text; [match_at_metadata] below shows the two agree. *)

(** The white space [\s*] takes. *)
Fixpoint drop_spaces (s : text) : text :=
  match s with
  | c :: t => if is_space c then drop_spaces t else s
  | [] => []
  end.

(** After the first character of the value: the characters up to the
    nearest quote on the same line, and the text after that quote. *)
Fixpoint lazy_value (s : text) : option (text * text) :=
  match s with
  | [] => None
  | c :: t =>
      if is_quote c then Some ([], t)
      else if is_dot c then '(v, r) ← lazy_value t; Some (c :: v, r)
      else None
  end.

(** After the opening quote: the value and the text after its closing
    quote. The value has at least one character. *)
Definition value_and_rest (s : text) : option (text * text) :=
  match s with
  | [] => None
  | c :: t =>
      if is_dot c then '(v, r) ← lazy_value t; Some (c :: v, r) else None
  end.

(** The field name the text starts with. *)
Definition field_of (s : text) : option (text * text) :=
  match strip_prefix F_NAME s with
  | Some r => Some (F_NAME, r)
  | None =>
      match strip_prefix F_AUTHOR s with
      | Some r => Some (F_AUTHOR, r)
      | None =>
          match strip_prefix F_VERSION s with
          | Some r => Some (F_VERSION, r)
          | None =>
              match strip_prefix F_DESCRIPTION s with
              | Some r => Some (F_DESCRIPTION, r)
              | None => None
              end
          end
      end
  end.

(** After the field name: the closing underscores, the equals sign with
    white space around it, the opening quote, the value, the closing
    quote; the value and the text after the match. *)
Definition assigned_value (s2 : text) : option (text * text) :=
  s3 ← strip_prefix (str "__") s2;
  s4 ← strip_prefix [61] (drop_spaces s3);
  match drop_spaces s4 with
  | [] => None
  | q :: s5 => if is_quote q then value_and_rest s5 else None
  end.

Definition match_spec (s : text) : option (text * text * text) :=
  s1 ← strip_prefix (str "__plugin_") s;
  '(k, s2) ← field_of s1;
  '(v, r) ← assigned_value s2;
  Some (k, v, r).

(** What lazy [.+?] does with the rest [k] of the pattern: [k] is tried
    after one character, then after two, and so on along the line. *)
Fixpoint lazy_search {R : Type} (k : text -> option R) (s : text) : option R :=
  match s with
  | [] => None
  | c :: t =>
      if is_dot c
      then match k t with Some x => Some x | None => lazy_search k t end
      else None
  end.

(** The left-hand side of an assignment to the field [k]. *)
Definition marker (k : text) : text := str "__plugin_" ++ k ++ str "__".

(** [__plugin_<k>__ = Q<v>Q], with white space [ws1] and [ws2] around the
    equals sign and the quote characters [q1] and [q2]. *)
Definition assignment (k ws1 ws2 : text) (q1 : char) (v : text) (q2 : char) : text :=
  marker k ++ ws1 ++ [61] ++ ws2 ++ [q1] ++ v ++ [q2].

(** The positions at which [sub] occurs in [s], counted from [i]. *)
Fixpoint occurrences_from (i : nat) (s sub : text) : list nat :=
  (if startswith s sub then [i] else [])
  ++ match s with
     | [] => []
     | _ :: t => occurrences_from (S i) t sub
     end.

Definition occurrences (s sub : text) : list nat := occurrences_from O s sub.

(** No match of the pattern that starts inside [pre] runs past the end of
    [pre] in the text [pre ++ rest]. *)
Fixpoint clear_before (pre rest : text) : bool :=
  match pre with
  | [] => true
  | _ :: pre' =>
      match match_at metadata_pattern (pre ++ rest) with
      | Some (_, _, s') => (length rest <=? length s')%nat
      | None => true
      end && clear_before pre' rest
  end.

(** The pattern matches at place [i] of [content], for the field [k]. *)
Definition matches_field_at (content k : text) (i : nat) : bool :=
  match match_at metadata_pattern (drop i content) with
  | Some (k', _, _) => bool_decide (k' = k)
  | None => false
  end.

(** The pattern matches at place [i] for the field [k], and no match that
    starts before [i] runs past [i]. *)
Definition counted_at (content k : text) (i : nat) : bool :=
  matches_field_at content k i
  && clear_before (take i content) (drop i content).

(** The text holds an assignment to the field [k] at a place that no
    earlier match of the pattern runs into. *)
Definition has_assignment (content k : text) : bool :=
  existsb (counted_at content k) (seq 0 (length content)).

(** The pattern matches for the field [k] at no place after [i]. *)
Definition latest_at (content k : text) (i : nat) : bool :=
  forallb (fun j => negb (matches_field_at content k j))
    (seq (S i) (length content - S i)).

(** The text is at the end of a line: nothing is left, or a line feed
    comes next. *)
Definition line_end (post : text) : bool :=
  match post with
  | [] => true
  | c :: _ => c =? NEWLINE
  end.

(** ** The manifest, described directly *)

Definition content_of (w : FS) (filename : text) : option text :=
  files w !! path_join PLUGIN_DIR filename.

(** The test the script applies to the text of a file. *)
Definition qualifies (content : text) : bool :=
  forallb (contains (meta_matches_of content)) REQUIRED.

(** A directory entry that yields a record: a [.py] file whose text has all
    four fields. *)
Definition qualifying (w : FS) (filename : text) : bool :=
  endswith filename (str ".py")
  && match content_of w filename with
     | Some content => qualifies content
     | None => false
     end.

(** Every [.py] entry can be read. *)
Definition readable (w : FS) (names : list text) : bool :=
  forallb (fun filename =>
    implb (endswith filename (str ".py"))
          (bool_decide (is_Some (content_of w filename)))) names.

Definition record_of (filename content : text) : plugin :=
  let m := meta_matches_of content in
  {| name := default [] (m !! F_NAME);
     author := default [] (m !! F_AUTHOR);
     version := default [] (m !! F_VERSION);
     description := default [] (m !! F_DESCRIPTION);
     icon_url := icon_url_of filename;
     download_url := download_url_of filename |}.

Definition record_for (w : FS) (filename : text) : plugin :=
  record_of filename (default [] (content_of w filename)).

(** One record per qualifying entry, in the order of the listing. *)
Definition expected_manifest (w : FS) (names : list text) : list plugin :=
  map (record_for w) (filter (fun f => qualifying w f = true) names).

(** The field of a record that holds the metadata key [k]. *)
Definition field (k : text) (p : plugin) : option text :=
  if bool_decide (k = F_NAME) then Some (name p)
  else if bool_decide (k = F_AUTHOR) then Some (author p)
  else if bool_decide (k = F_VERSION) then Some (version p)
  else if bool_decide (k = F_DESCRIPTION) then Some (description p)
  else None.

(** The records of a manifest that belong to the file [filename]. *)
Definition records_for (filename : text) (manifest : list plugin) : list plugin :=
  filter (fun p => download_url p = download_url_of filename) manifest.

(** The world after a successful run that started in [w] with the manifest
    [plugins_data]. *)
Definition world_after (w : world) (plugins_data : list plugin) : world :=
  {| fs := {| dirs := dirs (fs w);
              files := <[OUTPUT_FILE := dumps 0 (manifest_json plugins_data)]>
                         (files (fs w));
              locked := locked (fs w) |};
     stdout := stdout w ++ summary (length plugins_data) ++ [NEWLINE] |}.

(** ** Sample data *)

(** A value between double quotes. *)
Definition dq (v : text) : text := DQUOTE :: v ++ [DQUOTE].

(** One line assigning [v] to the field [k]. *)
Definition assign (k v : text) : text :=
  marker k ++ str " = " ++ dq v ++ [NEWLINE].

Definition currency_converter : text :=
  str "# CurrencyConverter plugin
import sys
" ++ assign F_NAME (str "Money Converter")
  ++ assign F_AUTHOR (str "Ayden")
  ++ assign F_VERSION (str "1.1")
  ++ assign F_DESCRIPTION (str "Convert currencies...")
  ++ str "class CurrencyConverter: pass
".

(** A plugin without its version. *)
Definition three_fields : text :=
  assign F_NAME (str "Grapher") ++ assign F_AUTHOR (str "Ayden")
  ++ assign F_DESCRIPTION (str "Draw graphs").

(** A plugin that assigns its version twice. *)
Definition two_versions : text :=
  assign F_NAME (str "Grapher") ++ assign F_AUTHOR (str "Ayden")
  ++ assign F_VERSION (str "1.0") ++ assign F_DESCRIPTION (str "Draw graphs")
  ++ assign F_VERSION (str "2.0").

(** A file name with [.py] inside the stem. *)
Definition dotted_name : text := str "my.pytools.py".

(** A name whose value swallows an assignment to the author. *)
Definition swallowed : text :=
  marker F_NAME ++ str " = "
  ++ dq (assignment F_AUTHOR (str " ") (str " ") SQUOTE (str "x") SQUOTE).

(** A file with all four assignments, the one to the author inside the
    value of the name. *)
Definition swallowed_file : text :=
  swallowed ++ [NEWLINE] ++ assign F_VERSION (str "1.0")
  ++ assign F_DESCRIPTION (str "Draw graphs").

(** A file whose second assignment to the name stands inside the value of
    the first. *)
Definition nested_name : text :=
  marker F_NAME ++ str " = "
  ++ dq (assignment F_NAME (str " ") (str " ") SQUOTE (str "x") SQUOTE)
  ++ [NEWLINE]
  ++ assign F_AUTHOR (str "Ayden") ++ assign F_VERSION (str "1.0")
  ++ assign F_DESCRIPTION (str "Draw graphs").

(** An empty name, followed on its line by a comment with an apostrophe. *)
Definition empty_name : text :=
  marker F_NAME ++ str " = " ++ [DQUOTE; DQUOTE]
  ++ str "  # the plugin's name" ++ [NEWLINE]
  ++ assign F_AUTHOR (str "Ayden") ++ assign F_VERSION (str "1.0")
  ++ assign F_DESCRIPTION (str "Draw graphs").

(** An empty name with no quote after it on its line. *)
Definition empty_name_alone : text :=
  str "# metadata
" ++ marker F_NAME ++ str " = " ++ [DQUOTE; DQUOTE] ++ str "  # to do"
  ++ [NEWLINE]
  ++ assign F_AUTHOR (str "Ayden") ++ assign F_VERSION (str "1.0")
  ++ assign F_DESCRIPTION (str "Draw graphs").

(** An assignment inside a comment and one inside a string literal. *)
Definition in_comment : text :=
  str "# " ++ assign F_NAME (str "Grapher")
  ++ str "doc = '''" ++ assign F_AUTHOR (str "Ayden") ++ str "'''".

Definition sample_names : list text :=
  [str "CurrencyConverter.py"; str "notes.txt"; str "Grapher.py";
   str "Twice.py"; dotted_name; str "Empty.py"; str "Alone.py"].

Definition sample_fs : FS :=
  {| dirs := {[ PLUGIN_DIR := sample_names ]};
     files := {[ str "plugins/CurrencyConverter.py" := currency_converter ]}
              ∪ {[ str "plugins/Grapher.py" := three_fields ]}
              ∪ {[ str "plugins/Twice.py" := two_versions ]}
              ∪ {[ str "plugins/my.pytools.py" := currency_converter ]}
              ∪ {[ str "plugins/Empty.py" := empty_name ]}
              ∪ {[ str "plugins/Alone.py" := empty_name_alone ]};
     locked := ∅ |}.

Definition sample_world : world := {| fs := sample_fs; stdout := [] |}.

(** A listing with an entry that cannot be read. *)
Definition ghost_fs : FS :=
  {| dirs := {[ PLUGIN_DIR := [str "CurrencyConverter.py"; str "ghost.py"] ]};
     files := {[ str "plugins/CurrencyConverter.py" := currency_converter ]}
              ∪ {[ OUTPUT_FILE := str "[]" ]};
     locked := ∅ |}.

Definition ghost_world : world := {| fs := ghost_fs; stdout := [] |}.

(** A listing without a qualifying entry. *)
Definition bare_fs : FS :=
  {| dirs := {[ PLUGIN_DIR := [str "notes.txt"; str "Grapher.py"] ]};
     files := {[ str "plugins/Grapher.py" := three_fields ]};
     locked := ∅ |}.

Definition bare_world : world := {| fs := bare_fs; stdout := [] |}.

(** A listing of files in which an assignment stands inside a match. *)
Definition overlap_names : list text := [str "Swallowed.py"; str "Nested.py"].

Definition overlap_fs : FS :=
  {| dirs := {[ PLUGIN_DIR := overlap_names ]};
     files := {[ str "plugins/Swallowed.py" := swallowed_file ]}
              ∪ {[ str "plugins/Nested.py" := nested_name ]};
     locked := ∅ |}.

Definition overlap_world : world := {| fs := overlap_fs; stdout := [] |}.

(** ** Further notions *)

(** The first [.py] entry of a listing that cannot be read. *)
Fixpoint first_unreadable (w : FS) (names : list text) : option text :=
  match names with
  | [] => None
  | f :: l =>
      if endswith f (str ".py")
         && negb (bool_decide (is_Some (content_of w f)))
      then Some f
      else first_unreadable w l
  end.

(** [int(s)] for a decimal numeral. *)
Definition int_of (s : text) : N :=
  fold_left (fun a c => 10 * a + (c - 48)) s 0.

Definition is_digit (c : char) : bool := (48 <=? c) && (c <=? 57).

(** A line feed or a printable ASCII character. *)
Definition printable (c : char) : bool :=
  (c =? NEWLINE) || ((32 <=? c) && (c <=? 126)).

(** Every string of a value, keys included, passes the test [p]. *)
Fixpoint json_all (p : text -> bool) (v : json) : bool :=
  match v with
  | JStr s => p s
  | JArr items => forallb (json_all p) items
  | JObj members =>
      forallb (fun kv => p (fst kv) && json_all p (snd kv)) members
  end.

(** The names of a listing and the texts of its readable entries are as
    file-system decoding and UTF-8 decoding yield them. *)
Definition scalar_inputs (w : FS) (names : list text) : bool :=
  forallb (fun f =>
    scalar_text f
    && match content_of w f with
       | Some content => scalar_text content
       | None => true
       end) names.

(** The sample world after a run. *)
Definition sample_after : world :=
  world_after sample_world (expected_manifest sample_fs sample_names).

(** * Properties *)

(** ** The matcher on the shapes the pattern uses *)

Section Matcher.
Context {R : Type}.
Implicit Types (k : text -> groups -> option R) (s : text) (g : groups).

Lemma rmatch_seq r1 r2 s g k :
  rmatch (Seq r1 r2) s g k = rmatch r1 s g (fun s' g' => rmatch r2 s' g' k).
Proof. done. Qed.

Lemma rmatch_lit c s g k :
  rmatch (Lit c) s g k
  = match s with x :: s' => if c =? x then k s' g else None | [] => None end.
Proof. done. Qed.

Lemma rmatch_cls p s g k :
  rmatch (Cls p) s g k
  = match s with x :: s' => if p x then k s' g else None | [] => None end.
Proof. done. Qed.

Lemma rmatch_alt r1 r2 s g k :
  rmatch (Alt r1 r2) s g k
  = match rmatch r1 s g k with Some x => Some x | None => rmatch r2 s g k end.
Proof. done. Qed.

Lemma rmatch_star r s g k :
  rmatch (Star r) s g k
  = star_loop (fun s' g' k' => rmatch r s' g' k') k (length s) s g.
Proof. done. Qed.

Lemma rmatch_plus_lazy r s g k :
  rmatch (PlusLazy r) s g k
  = plus_loop (fun s' g' k' => rmatch r s' g' k') k (length s) s g.
Proof. done. Qed.

Lemma rmatch_group i r s g k :
  rmatch (Group i r) s g k
  = rmatch r s g (fun s' g' => k s' (<[i := take (length s - length s') s]> g')).
Proof. done. Qed.

Lemma rmatch_lits l s g k :
  rmatch (lits l) s g k
  = match strip_prefix l s with Some s' => k s' g | None => None end.
Proof.
  revert s. induction l as [|a l IH]; intros s; simpl; [done|].
  destruct s as [|b s]; [done|]. destruct (a =? b); [apply IH | done].
Qed.

(** Greedy white space gives nothing back when what follows it cannot
    start with white space. *)
Lemma star_loop_spaces k fuel s g :
  (∀ c t g', is_space c = true → k (c :: t) g' = None) →
  (length s ≤ fuel)%nat →
  star_loop (fun s' g' k' => rmatch (Cls is_space) s' g' k') k fuel s g
  = k (drop_spaces s) g.
Proof.
  intros Hk. revert s. induction fuel as [|n IH]; intros s Hlen.
  - destruct s; simpl in *; [done | lia].
  - destruct s as [|c t]; simpl; [done|].
    destruct (is_space c) eqn:Hc; [|done].
    assert ((length t <? S (length t))%nat = true) as -> by (apply Nat.ltb_lt; lia).
    simpl in Hlen. rewrite IH by lia.
    destruct (k (drop_spaces t) g) eqn:Hd; [done|]. by apply Hk.
Qed.

Lemma plus_loop_dot k fuel s g :
  (length s ≤ fuel)%nat →
  plus_loop (fun s' g' k' => rmatch (Cls is_dot) s' g' k') k fuel s g
  = lazy_search (fun s' => k s' g) s.
Proof.
  revert s. induction fuel as [|n IH]; intros s Hlen.
  - destruct s; simpl in *; [done | lia].
  - destruct s as [|c t]; simpl; [done|].
    destruct (is_dot c); [|done].
    destruct (k t g); [done|].
    assert ((length t <? S (length t))%nat = true) as -> by (apply Nat.ltb_lt; lia).
    simpl in Hlen. apply IH. lia.
Qed.
End Matcher.

Lemma strip_prefix_Some p s r : strip_prefix p s = Some r ↔ s = p ++ r.
Proof.
  revert s. induction p as [|a p IH]; intros s; simpl.
  - split; [by intros [= ->] | by intros ->].
  - destruct s as [|b s]; [split; discriminate|].
    destruct (N.eqb_spec a b) as [->|Hne].
    + rewrite IH. split; [by intros -> | by intros [= ->]].
    + split; [discriminate | intros [= -> _]; done].
Qed.

Lemma strip_prefix_app p r : strip_prefix p (p ++ r) = Some r.
Proof. by apply strip_prefix_Some. Qed.

Lemma take_consumed (m r : text) : take (length (m ++ r) - length r) (m ++ r) = m.
Proof.
  rewrite length_app.
  replace (length m + length r - length r)%nat with (length m) by lia.
  apply take_app_length.
Qed.

(** The lazy group followed by the closing quote. *)
Lemma lazy_search_value {R} (f : text -> text -> R) (pre : text) c t :
  let s := pre ++ c :: t in
  let k := fun s' : text =>
    match s' with
    | x :: r => if is_quote x then Some (f (take (length s - length s') s) r)
                else None
    | [] => None
    end in
  match k t with Some x => Some x | None => lazy_search k t end
  = match lazy_value t with
    | Some (v, r) => Some (f (pre ++ c :: v) r)
    | None => None
    end.
Proof.
  revert pre c. induction t as [|x r IH]; intros pre c; simpl; [done|].
  destruct (is_quote x) eqn:Hq.
  - do 2 f_equal.
    change (pre ++ c :: x :: r) with (pre ++ [c] ++ x :: r).
    rewrite app_assoc. apply (take_consumed (pre ++ [c]) (x :: r)).
  - destruct (is_dot x) eqn:Hd; [|done].
    specialize (IH (pre ++ [c]) x). simpl in IH.
    replace ((pre ++ [c]) ++ x :: r) with (pre ++ c :: x :: r) in IH
      by (by rewrite <- app_assoc).
    rewrite IH. destruct (lazy_value r) as [[v r']|]; simpl; [|done].
    by rewrite <- app_assoc.
Qed.

Lemma is_space_not_equals c : is_space c = true → (61 =? c) = false.
Proof.
  intros H. destruct (N.eqb_spec 61 c) as [<-|]; [|done]. discriminate H.
Qed.

Lemma is_space_not_quote c : is_space c = true → is_quote c = false.
Proof.
  intros H. unfold is_quote, DQUOTE, SQUOTE.
  destruct (N.eqb_spec c 34) as [->|]; [discriminate H|].
  destruct (N.eqb_spec c 39) as [->|]; [discriminate H|]. done.
Qed.

(** The pattern after the field name. *)
Lemma rmatch_tail (k : text) s2 (g : groups) :
  g !! 1%nat = Some k →
  rmatch
    (Seq (lits (str "__"))
    (Seq (Star (Cls is_space))
    (Seq (Lit 61)
    (Seq (Star (Cls is_space))
    (Seq (Cls is_quote)
    (Seq (Group 2 (PlusLazy (Cls is_dot)))
         (Cls is_quote)))))))
    s2 g (fun s' g' => Some (group 1 g', group 2 g', s'))
  = '(v, r) ← assigned_value s2; Some (k, v, r).
Proof.
  intros Hg. rewrite rmatch_seq, rmatch_lits. unfold assigned_value.
  destruct (strip_prefix (str "__") s2) as [s3|]; [|done]. cbn [mbind option_bind].
  rewrite rmatch_seq, rmatch_star, star_loop_spaces; [| |done].
  2:{ intros c t g' Hc. rewrite rmatch_seq, rmatch_lit.
      by rewrite is_space_not_equals. }
  rewrite rmatch_seq, rmatch_lit.
  destruct (drop_spaces s3) as [|e s4]; [done|]. cbn [strip_prefix].
  destruct (61 =? e); [|done]. cbn [mbind option_bind].
  rewrite rmatch_seq, rmatch_star, star_loop_spaces; [| |done].
  2:{ intros c t g' Hc. rewrite rmatch_seq, rmatch_cls.
      by rewrite is_space_not_quote. }
  rewrite rmatch_seq, rmatch_cls.
  destruct (drop_spaces s4) as [|q s5]; [done|].
  destruct (is_quote q); [|done].
  rewrite rmatch_seq, rmatch_group, rmatch_plus_lazy, plus_loop_dot by done.
  destruct s5 as [|c t]; [done|]. cbn [lazy_search value_and_rest].
  destruct (is_dot c); [|done].
  etrans; [apply (lazy_search_value
    (fun v r => (group 1 (<[2%nat := v]> g), group 2 (<[2%nat := v]> g), r)) [] c t)|].
  destruct (lazy_value t) as [[v r]|]; [|done]. cbn.
  unfold group. rewrite lookup_insert_ne by done.
  rewrite lookup_insert_eq, Hg. done.
Qed.

(** The alternatives of the first group start with different letters: once
    one of them is a prefix of the text, the others are not. *)
Ltac other_fields :=
  repeat match goal with
  | |- context [strip_prefix ?a (?b ++ ?s)] =>
      change (strip_prefix a (b ++ s)) with (@None text)
  end.

Ltac field_case H :=
  apply strip_prefix_Some in H as ->; rewrite take_consumed;
  erewrite rmatch_tail by apply lookup_insert_eq;
  cbn [mbind option_bind];
  match goal with
  | |- context [assigned_value ?s2] =>
      destruct (assigned_value s2) as [[? ?]|]; [done|]
  end;
  other_fields; done.

(** One attempt of the pattern is the plain scan [match_spec]. *)
Lemma match_at_metadata s : match_at metadata_pattern s = match_spec s.
Proof.
  unfold match_at, metadata_pattern, match_spec.
  rewrite rmatch_seq, rmatch_lits.
  destruct (strip_prefix (str "__plugin_") s) as [s1|]; [|done].
  cbn [mbind option_bind].
  rewrite rmatch_seq, rmatch_group, !rmatch_alt, !rmatch_lits.
  unfold field_of.
  destruct (strip_prefix F_NAME s1) as [s2|] eqn:H1; [field_case H1|].
  destruct (strip_prefix F_AUTHOR s1) as [s2|] eqn:H2; [field_case H2|].
  destruct (strip_prefix F_VERSION s1) as [s2|] eqn:H3; [field_case H3|].
  destruct (strip_prefix F_DESCRIPTION s1) as [s2|] eqn:H4; [field_case H4|done].
Qed.

(** ** The shape of a match *)

Lemma drop_spaces_suffix s : ∃ ws, s = ws ++ drop_spaces s.
Proof.
  induction s as [|c t [ws IH]]; simpl; [by exists []|].
  destruct (is_space c); [|by exists []].
  exists (c :: ws). simpl. by f_equal.
Qed.

Lemma drop_spaces_app ws c r :
  Forall (fun x => is_space x = true) ws → is_space c = false →
  drop_spaces (ws ++ c :: r) = c :: r.
Proof.
  intros Hws Hc. induction Hws as [|x ws Hx _ IH]; simpl; [by rewrite Hc|].
  by rewrite Hx.
Qed.

Lemma lazy_value_suffix t v r :
  lazy_value t = Some (v, r) → ∃ q, t = v ++ q :: r.
Proof.
  revert v. induction t as [|c t IH]; intros v; simpl; [done|].
  destruct (is_quote c); [intros [= <- <-]; by exists c|].
  destruct (is_dot c); [|done].
  destruct (lazy_value t) as [[v' r']|]; [|done]. simpl. intros [= <- <-].
  destruct (IH v' eq_refl) as [q ->]. by exists q.
Qed.

Lemma lazy_value_app v q r :
  Forall (fun x => is_quote x = false ∧ is_dot x = true) v →
  is_quote q = true →
  lazy_value (v ++ q :: r) = Some (v, r).
Proof.
  intros Hv Hq. induction Hv as [|x v [Hx1 Hx2] _ IH]; simpl; [by rewrite Hq|].
  by rewrite Hx1, Hx2, IH.
Qed.

(** No quote before the end of the line: the lazy group finds no end. *)
Lemma lazy_value_none line post :
  Forall (fun x => is_quote x = false) line →
  line_end post = true →
  lazy_value (line ++ post) = None.
Proof.
  intros Hl Hp. induction Hl as [|x l Hx _ IH]; simpl.
  - destruct post as [|c post]; [done|]. simpl in Hp.
    apply N.eqb_eq in Hp as ->. done.
  - rewrite Hx, IH. by destruct (is_dot x).
Qed.

Lemma field_of_Some s1 k s2 :
  field_of s1 = Some (k, s2) → s1 = k ++ s2 ∧ k ∈ REQUIRED.
Proof.
  unfold field_of, REQUIRED.
  destruct (strip_prefix F_NAME s1) eqn:H1;
    [apply strip_prefix_Some in H1; intros [= <- <-]; split; [done | set_solver]|].
  destruct (strip_prefix F_AUTHOR s1) eqn:H2;
    [apply strip_prefix_Some in H2; intros [= <- <-]; split; [done | set_solver]|].
  destruct (strip_prefix F_VERSION s1) eqn:H3;
    [apply strip_prefix_Some in H3; intros [= <- <-]; split; [done | set_solver]|].
  destruct (strip_prefix F_DESCRIPTION s1) eqn:H4; [|done].
  apply strip_prefix_Some in H4; intros [= <- <-]; split; [done | set_solver].
Qed.

Lemma field_of_app k s2 : k ∈ REQUIRED → field_of (k ++ s2) = Some (k, s2).
Proof.
  unfold REQUIRED. rewrite !elem_of_cons, elem_of_nil.
  intros [->|[->|[->|[->|[]]]]]; reflexivity.
Qed.

(** Every match is an assignment to one of the four fields, with a value
    of at least one character. *)
Lemma match_spec_Some s k v r :
  match_spec s = Some (k, v, r) →
  k ∈ REQUIRED ∧ v ≠ [] ∧
  ∃ ws1 ws2 q1 q2, s = assignment k ws1 ws2 q1 v q2 ++ r.
Proof.
  unfold match_spec.
  destruct (strip_prefix (str "__plugin_") s) as [s1|] eqn:H1; [|done].
  apply strip_prefix_Some in H1 as ->. cbn [mbind option_bind].
  destruct (field_of s1) as [[k' s2]|] eqn:H2; [|done].
  apply field_of_Some in H2 as [-> Hk]. cbn [mbind option_bind].
  unfold assigned_value.
  destruct (strip_prefix (str "__") s2) as [s3|] eqn:H3; [|done].
  apply strip_prefix_Some in H3 as ->. cbn [mbind option_bind].
  destruct (drop_spaces_suffix s3) as [ws1 E1].
  destruct (drop_spaces s3) as [|e s4]; [done|]. cbn [strip_prefix].
  destruct (N.eqb_spec 61 e) as [<-|]; [|done]. cbn [mbind option_bind].
  destruct (drop_spaces_suffix s4) as [ws2 E2].
  destruct (drop_spaces s4) as [|q1 s5]; [done|].
  destruct (is_quote q1); [|done].
  destruct s5 as [|c t]; [done|]. cbn [value_and_rest].
  destruct (is_dot c); [|done].
  destruct (lazy_value t) as [[v' r']|] eqn:H5; [|done].
  cbn [mbind option_bind]. intros [= <- <- <-].
  apply lazy_value_suffix in H5 as [q2 ->].
  split; [done|]. split; [done|].
  exists ws1, ws2, q1, q2. rewrite E1, E2. unfold assignment, marker.
  by rewrite <- !app_assoc.
Qed.

Lemma match_spec_assignment k ws1 ws2 q1 c v q2 r :
  k ∈ REQUIRED →
  Forall (fun x => is_space x = true) ws1 →
  Forall (fun x => is_space x = true) ws2 →
  is_quote q1 = true → is_dot c = true →
  Forall (fun x => is_quote x = false ∧ is_dot x = true) v →
  is_quote q2 = true →
  match_spec (assignment k ws1 ws2 q1 (c :: v) q2 ++ r) = Some (k, c :: v, r).
Proof.
  intros Hk H1 H2 Hq1 Hc Hv Hq2. unfold match_spec, assignment, marker.
  rewrite <- !app_assoc, strip_prefix_app. cbn [mbind option_bind].
  rewrite field_of_app by done. cbn [mbind option_bind].
  unfold assigned_value. rewrite strip_prefix_app. cbn [mbind option_bind app].
  rewrite (drop_spaces_app ws1 61) by done. cbn [strip_prefix N.eqb Pos.eqb].
  cbn [mbind option_bind].
  assert (is_space q1 = false) as Hs.
  { destruct (is_space q1) eqn:E; [|done]. apply is_space_not_quote in E. congruence. }
  rewrite (drop_spaces_app ws2 q1) by done. rewrite Hq1.
  cbn [app value_and_rest]. rewrite Hc, lazy_value_app by done. done.
Qed.

(** An empty value with no further quote on its line is no match. *)
Lemma match_spec_empty_value k ws1 ws2 q1 q2 line post :
  Forall (fun x => is_space x = true) ws1 →
  Forall (fun x => is_space x = true) ws2 →
  is_quote q1 = true → is_quote q2 = true →
  Forall (fun x => is_quote x = false) line →
  line_end post = true →
  k ∈ REQUIRED →
  match_spec (marker k ++ ws1 ++ [61] ++ ws2 ++ [q1; q2] ++ line ++ post) = None.
Proof.
  intros H1 H2 Hq1 Hq2 Hl Hp Hk. unfold match_spec, marker.
  rewrite <- !app_assoc, strip_prefix_app. cbn [mbind option_bind].
  rewrite field_of_app by done. cbn [mbind option_bind].
  unfold assigned_value. rewrite strip_prefix_app. cbn [mbind option_bind app].
  rewrite (drop_spaces_app ws1 61) by done. cbn [strip_prefix N.eqb Pos.eqb].
  cbn [mbind option_bind].
  assert (is_space q1 = false) as Hs.
  { destruct (is_space q1) eqn:E; [|done]. apply is_space_not_quote in E. congruence. }
  rewrite (drop_spaces_app ws2 q1) by done. rewrite Hq1.
  cbn [app value_and_rest]. rewrite lazy_value_none by done.
  by destruct (is_dot q2).
Qed.

Lemma match_spec_shorter s k v r :
  match_spec s = Some (k, v, r) → (length r < length s)%nat.
Proof.
  intros H. apply match_spec_Some in H as (_ & _ & ws1 & ws2 & q1 & q2 & ->).
  unfold assignment, marker. rewrite !length_app. simpl. lia.
Qed.

(** ** The scan of a text *)

Lemma findall_from_fuel n m s :
  (length s < n)%nat → (length s < m)%nat →
  findall_from n metadata_pattern s = findall_from m metadata_pattern s.
Proof.
  revert m s. induction n as [|n IH]; intros m s Hn Hm; [lia|].
  destruct m as [|m]; [lia|]. simpl. rewrite match_at_metadata.
  destruct (match_spec s) as [[[k v] r]|] eqn:E.
  - apply match_spec_shorter in E.
    assert ((length r <? length s)%nat = true) as -> by (apply Nat.ltb_lt; lia).
    f_equal. apply IH; lia.
  - destruct s as [|c t]; [done|]. simpl in *. apply IH; lia.
Qed.

(** The scan, one step at a time: a match is reported and the scan resumes
    after it; without a match the scan moves one character on. *)
Lemma findall_eq s :
  findall metadata_pattern s
  = match match_spec s with
    | Some (k, v, r) => (k, v) :: findall metadata_pattern r
    | None =>
        match s with
        | [] => []
        | _ :: t => findall metadata_pattern t
        end
    end.
Proof.
  unfold findall at 1. simpl. rewrite match_at_metadata.
  destruct (match_spec s) as [[[k v] r]|] eqn:E.
  - apply match_spec_shorter in E.
    assert ((length r <? length s)%nat = true) as -> by (apply Nat.ltb_lt; lia).
    f_equal. apply findall_from_fuel; lia.
  - destruct s as [|c t]; [done|]. apply findall_from_fuel; simpl; lia.
Qed.

(** ** Dictionaries built from pairs *)

Lemma dict_snoc pairs k v : dict (pairs ++ [(k, v)]) = <[k := v]> (dict pairs).
Proof. unfold dict. by rewrite foldl_app. Qed.

Lemma dict_is_Some pairs k : is_Some (dict pairs !! k) ↔ k ∈ pairs.*1.
Proof.
  induction pairs as [|[k' v'] pairs IH] using rev_ind.
  - unfold dict. simpl. rewrite lookup_empty, elem_of_nil.
    split; [by intros [? ?] | done].
  - rewrite dict_snoc, fmap_app, elem_of_app. simpl.
    rewrite list_elem_of_singleton.
    destruct (decide (k' = k)) as [->|Hne].
    + rewrite lookup_insert_eq. split; [by right | by eexists].
    + rewrite lookup_insert_ne by done. rewrite IH.
      split; [by left | by intros [?|?]; [|congruence]].
Qed.

(** The last pair with a given key decides the value. *)
Lemma dict_last l1 k v l2 :
  k ∉ l2.*1 → dict (l1 ++ (k, v) :: l2) !! k = Some v.
Proof.
  revert l1. induction l2 as [|[k' v'] l2 IH] using rev_ind; intros l1 Hk.
  - rewrite dict_snoc. apply lookup_insert_eq.
  - rewrite fmap_app, not_elem_of_app in Hk. destruct Hk as [Hk Hk'].
    simpl in Hk'. rewrite list_elem_of_singleton in Hk'.
    rewrite app_comm_cons, app_assoc, dict_snoc.
    rewrite lookup_insert_ne by done. by apply IH.
Qed.

Lemma contains_true d k : contains d k = true ↔ is_Some (d !! k).
Proof. unfold contains. by rewrite bool_decide_eq_true. Qed.

Lemma qualifies_true content :
  qualifies content = true
  ↔ ∀ k, k ∈ REQUIRED → k ∈ (findall metadata_pattern content).*1.
Proof.
  unfold qualifies. rewrite forallb_forall. unfold meta_matches_of.
  split; intros H k Hk.
  - apply dict_is_Some, contains_true, H. by apply list_elem_of_In.
  - apply contains_true, dict_is_Some, H. by apply list_elem_of_In.
Qed.

Lemma qualifies_false content :
  qualifies content = false
  ↔ ∃ k, k ∈ REQUIRED ∧ k ∉ (findall metadata_pattern content).*1.
Proof.
  rewrite <- not_true_iff_false, qualifies_true.
  rewrite <- Forall_forall, <- Exists_exists. split.
  - intros H. apply not_Forall_Exists in H; [|apply _].
    eapply Exists_impl; [exact H|]. by intros k Hk.
  - intros H. apply Exists_not_Forall in H. exact H.
Qed.

(** ** One directory entry *)

Lemma readable_spec w names :
  readable w names = true
  ↔ ∀ filename, filename ∈ names → endswith filename (str ".py") = true →
      is_Some (content_of w filename).
Proof.
  unfold readable. rewrite forallb_forall. split.
  - intros H f Hf He. apply list_elem_of_In, H in Hf.
    rewrite He in Hf. by apply bool_decide_eq_true in Hf.
  - intros H f Hf. destruct (endswith f (str ".py")) eqn:He; [|done].
    apply bool_decide_eq_true, H; [by apply list_elem_of_In | done].
Qed.

Lemma process_file_other filename acc w :
  endswith filename (str ".py") = false →
  process_file filename acc w = (Ok acc, w).
Proof. intros H. unfold process_file. by rewrite H. Qed.

Lemma process_file_unreadable filename acc w :
  endswith filename (str ".py") = true →
  content_of (fs w) filename = None →
  process_file filename acc w
  = (Raise (OSError (path_join PLUGIN_DIR filename)), w).
Proof.
  intros H Hc. unfold process_file, content_of in *. rewrite H.
  unfold mbind, M_bind, bind, read_text. by rewrite Hc.
Qed.

Lemma process_file_skipped filename content acc w :
  endswith filename (str ".py") = true →
  content_of (fs w) filename = Some content →
  qualifies content = false →
  process_file filename acc w = (Ok acc, w).
Proof.
  intros H Hc Hq. unfold process_file, content_of, qualifies in *. rewrite H.
  unfold mbind, M_bind, bind, read_text. by rewrite Hc, Hq.
Qed.

Lemma process_file_appended filename content acc w :
  endswith filename (str ".py") = true →
  content_of (fs w) filename = Some content →
  qualifies content = true →
  process_file filename acc w = (Ok (acc ++ [record_of filename content]), w).
Proof.
  intros H Hc Hq. unfold process_file, content_of in *. rewrite H.
  unfold mbind, M_bind, bind, read_text. rewrite Hc.
  pose proof Hq as Hq'. unfold qualifies in Hq'. rewrite Hq'.
  unfold qualifies, REQUIRED in Hq. cbn [forallb] in Hq.
  rewrite !andb_true_iff, !contains_true in Hq.
  destruct Hq as ([n Hn] & [a Ha] & [v Hv] & [d Hd] & _).
  unfold getitem, record_of. rewrite Hn, Ha, Hv, Hd. done.
Qed.

(** What the loop does with one entry, in one statement. *)
Lemma process_file_qualifying filename acc w :
  (endswith filename (str ".py") = true → is_Some (content_of (fs w) filename)) →
  process_file filename acc w
  = (Ok (acc ++ expected_manifest (fs w) [filename]), w).
Proof.
  intros Hr. unfold expected_manifest, record_for.
  rewrite filter_cons, filter_nil. unfold qualifying.
  destruct (endswith filename (str ".py")) eqn:He.
  - destruct (Hr eq_refl) as [content Hc]. rewrite Hc. simpl.
    destruct (qualifies content) eqn:Hq.
    + rewrite decide_True by done. simpl. rewrite Hc.
      by apply process_file_appended.
    + rewrite decide_False by done. simpl. rewrite app_nil_r.
      by eapply process_file_skipped.
  - rewrite decide_False by (cbn; done). simpl. rewrite app_nil_r.
    by apply process_file_other.
Qed.

Lemma expected_manifest_cons w f names :
  expected_manifest w (f :: names)
  = expected_manifest w [f] ++ expected_manifest w names.
Proof.
  unfold expected_manifest. rewrite <- map_app. f_equal.
  rewrite !filter_cons, filter_nil. by destruct (decide _).
Qed.

(** ** The loop *)

Lemma for_each_readable names acc w :
  readable (fs w) names = true →
  for_each names process_file acc w
  = (Ok (acc ++ expected_manifest (fs w) names), w).
Proof.
  revert acc. induction names as [|f names IH]; intros acc Hr.
  - simpl. unfold expected_manifest. by rewrite app_nil_r.
  - cbn [for_each]. unfold mbind, M_bind, bind.
    cbn [readable forallb] in Hr. apply andb_true_iff in Hr as [Hf Hr].
    rewrite process_file_qualifying.
    2:{ intros He. rewrite He in Hf. by apply bool_decide_eq_true in Hf. }
    rewrite IH by done.
    by rewrite (expected_manifest_cons _ f names), app_assoc.
Qed.

(** The first entry that cannot be read ends the loop, with the world as
    it was. *)
Lemma for_each_unreadable names acc w filename :
  filename ∈ names →
  endswith filename (str ".py") = true →
  content_of (fs w) filename = None →
  ∃ f, f ∈ names ∧ endswith f (str ".py") = true
       ∧ content_of (fs w) f = None
       ∧ for_each names process_file acc w
         = (Raise (OSError (path_join PLUGIN_DIR f)), w).
Proof.
  revert acc. induction names as [|f0 names IH]; intros acc Hin He Hc.
  - by apply elem_of_nil in Hin.
  - cbn [for_each]. unfold mbind, M_bind, bind.
    destruct (endswith f0 (str ".py")) eqn:He0.
    + destruct (content_of (fs w) f0) as [c0|] eqn:Hc0.
      * rewrite process_file_qualifying by (rewrite Hc0; eauto).
        apply elem_of_cons in Hin as [->|Hin]; [congruence|].
        destruct (IH (acc ++ expected_manifest (fs w) [f0]) Hin He Hc)
          as (f & ? & ? & ? & ->).
        exists f. split; [by right | done].
      * rewrite process_file_unreadable by done.
        exists f0. split; [by left | done].
    + rewrite process_file_other by done.
      apply elem_of_cons in Hin as [->|Hin]; [congruence|].
      destruct (IH acc Hin He Hc) as (f & ? & ? & ? & ->).
      exists f. split; [by right | done].
Qed.

(** ** The whole run *)

Lemma main_succeeds w names :
  dirs (fs w) !! PLUGIN_DIR = Some names →
  readable (fs w) names = true →
  OUTPUT_FILE ∉ locked (fs w) →
  main w = (Ok tt, world_after w (expected_manifest (fs w) names)).
Proof.
  intros Hd Hr Hl. unfold main, mbind, M_bind, bind, listdir. rewrite Hd.
  rewrite for_each_readable by done. simpl.
  unfold write_text. rewrite bool_decide_eq_false_2 by done. done.
Qed.

Lemma main_read_failure w names filename :
  dirs (fs w) !! PLUGIN_DIR = Some names →
  filename ∈ names →
  endswith filename (str ".py") = true →
  content_of (fs w) filename = None →
  ∃ f, f ∈ names ∧ content_of (fs w) f = None
       ∧ main w = (Raise (OSError (path_join PLUGIN_DIR f)), w).
Proof.
  intros Hd Hin He Hc. unfold main, mbind, M_bind, bind, listdir. rewrite Hd.
  destruct (for_each_unreadable names [] w filename Hin He Hc)
    as (f & ? & ? & ? & ->).
  by exists f.
Qed.

Lemma main_listdir_failure w :
  dirs (fs w) !! PLUGIN_DIR = None →
  main w = (Raise (FileNotFoundError PLUGIN_DIR), w).
Proof.
  intros Hd. unfold main, mbind, M_bind, bind, listdir. by rewrite Hd.
Qed.

Lemma main_write_failure w names :
  dirs (fs w) !! PLUGIN_DIR = Some names →
  readable (fs w) names = true →
  OUTPUT_FILE ∈ locked (fs w) →
  main w = (Raise (OSError OUTPUT_FILE), w).
Proof.
  intros Hd Hr Hl. unfold main, mbind, M_bind, bind, listdir. rewrite Hd.
  rewrite for_each_readable by done. simpl.
  unfold write_text. rewrite bool_decide_eq_true_2 by done. done.
Qed.

(** Where some [.py] entry cannot be read. *)
Lemma readable_false w names :
  readable w names = false →
  ∃ f, f ∈ names ∧ endswith f (str ".py") = true ∧ content_of w f = None.
Proof.
  induction names as [|f names IH]; [done|]. cbn [readable forallb].
  intros [H|H]%andb_false_iff.
  - destruct (endswith f (str ".py")) eqn:He; [|done].
    apply bool_decide_eq_false in H. rewrite <- eq_None_not_Some in H.
    exists f. split; [by left | done].
  - destruct (IH H) as (f' & ? & ? & ?).
    exists f'. split; [by right | done].
Qed.

(** ** Records of the manifest *)

Lemma filter_none {A} (P : A → Prop) `{∀ x, Decision (P x)} (l : list A) :
  Forall (fun x => ¬ P x) l → filter P l = [].
Proof.
  induction 1 as [|x l Hx _ IH]; [done|]. by rewrite filter_cons_False.
Qed.

(** A reported match is a match of the pattern at some place of the text. *)
Lemma findall_elem s k v :
  (k, v) ∈ findall metadata_pattern s →
  ∃ pre rest r, s = pre ++ rest ∧ match_spec rest = Some (k, v, r).
Proof.
  remember (length s) as n eqn:Hn. revert s Hn.
  induction n as [n IH] using lt_wf_ind. intros s -> Hin.
  rewrite findall_eq in Hin.
  destruct (match_spec s) as [[[k' v'] r]|] eqn:E.
  - apply elem_of_cons in Hin as [[= -> ->]|Hin].
    + by exists [], s, r.
    + pose proof (match_spec_shorter _ _ _ _ E) as Hlt.
      destruct (IH _ Hlt r eq_refl Hin) as (pre & rest & r' & -> & E').
      apply match_spec_Some in E as (_ & _ & ws1 & ws2 & q1 & q2 & ->).
      exists (assignment k' ws1 ws2 q1 v' q2 ++ pre), rest, r'.
      by rewrite <- app_assoc.
  - destruct s as [|c t]; [by apply elem_of_nil in Hin|].
    destruct (IH (length t) (Nat.lt_succ_diag_r _) t eq_refl Hin)
      as (pre & rest & r' & -> & E').
    by exists (c :: pre), rest, r'.
Qed.

(** The reported matches come in the order of the text: what is reported
    after a match is what the scan finds in the text after that match. *)
Lemma findall_split s l1 k v l2 :
  findall metadata_pattern s = l1 ++ (k, v) :: l2 →
  ∃ pre rest r,
    s = pre ++ rest ∧ match_spec rest = Some (k, v, r)
    ∧ findall metadata_pattern r = l2.
Proof.
  remember (length s) as n eqn:Hn. revert s l1 Hn.
  induction n as [n IH] using lt_wf_ind. intros s l1 -> Hf.
  rewrite findall_eq in Hf.
  destruct (match_spec s) as [[[k' v'] r]|] eqn:E.
  - destruct l1 as [|p l1]; cbn [app] in Hf; injection Hf as Hp Htl.
    + inversion Hp; subst. by exists [], s, r.
    + pose proof (match_spec_shorter _ _ _ _ E) as Hlt.
      destruct (IH _ Hlt r l1 eq_refl Htl) as (pre & rest & r' & -> & E' & Hl).
      apply match_spec_Some in E as (_ & _ & ws1 & ws2 & q1 & q2 & ->).
      exists (assignment k' ws1 ws2 q1 v' q2 ++ pre), rest, r'.
      by rewrite <- app_assoc.
  - destruct s as [|c t]; [by destruct l1|].
    destruct (IH (length t) (Nat.lt_succ_diag_r _) t l1 eq_refl Hf)
      as (pre & rest & r' & -> & E' & Hl).
    by exists (c :: pre), rest, r'.
Qed.

Lemma findall_key_required s k :
  k ∈ (findall metadata_pattern s).*1 → k ∈ REQUIRED.
Proof.
  intros [[k' v] [-> Hin]]%list_elem_of_fmap.
  apply findall_elem in Hin as (pre & rest & r & _ & E).
  by apply match_spec_Some in E as [? _].
Qed.

Lemma download_url_of_inj f1 f2 :
  download_url_of f1 = download_url_of f2 → f1 = f2.
Proof. unfold download_url_of. intros H. by simplify_list_eq. Qed.

Lemma records_for_app f l1 l2 :
  records_for f (l1 ++ l2) = records_for f l1 ++ records_for f l2.
Proof. apply filter_app. Qed.

(** The records of one file in the manifest of a listing without
    repetition: one if the file is listed and qualifies, none otherwise. *)
Lemma records_for_expected w names f :
  NoDup names →
  records_for f (expected_manifest w names)
  = if decide (f ∈ names ∧ qualifying w f = true)
    then [record_for w f] else [].
Proof.
  induction names as [|f0 names IH]; intros Hnd.
  - rewrite decide_False; [done|]. intros [H _]. by apply elem_of_nil in H.
  - apply NoDup_cons in Hnd as [Hf0 Hnd].
    rewrite expected_manifest_cons, records_for_app, IH by done.
    unfold expected_manifest at 1. rewrite filter_cons, filter_nil.
    destruct (decide (f0 = f)) as [->|Hne].
    + rewrite (decide_False (P := f ∈ names ∧ _)) by (by intros [? _]).
      rewrite app_nil_r. destruct (decide (qualifying w f = true)) as [Hq|Hq].
      * rewrite decide_True by (split; [by left | done]).
        unfold records_for. simpl. rewrite filter_cons, filter_nil.
        by rewrite decide_True.
      * rewrite decide_False by (by intros [_ ?]). done.
    + assert (records_for f (map (record_for w)
                (if decide (qualifying w f0 = true) then [f0] else [])) = [])
        as ->.
      { destruct (decide (qualifying w f0 = true)); [|done].
        unfold records_for. simpl.
        rewrite filter_cons, filter_nil. rewrite decide_False; [done|].
        simpl. intros H%download_url_of_inj. done. }
      simpl. destruct (decide (f ∈ names ∧ _)) as [[? ?]|Hn].
      * rewrite decide_True; [done|]. split; [by right | done].
      * rewrite decide_False; [done|]. intros [[?|?]%elem_of_cons ?]; [done|].
        by apply Hn.
Qed.

Lemma qualifying_true w f content :
  endswith f (str ".py") = true → content_of w f = Some content →
  qualifying w f = qualifies content.
Proof. intros He Hc. unfold qualifying. by rewrite He, Hc. Qed.

Lemma Forall_required content :
  Forall (fun k => k ∈ (findall metadata_pattern content).*1) REQUIRED
  ↔ qualifies content = true.
Proof. by rewrite qualifies_true, Forall_forall. Qed.

Lemma record_of_field content f k v :
  meta_matches_of content !! k = Some v → k ∈ REQUIRED →
  field k (record_of f content) = Some v.
Proof.
  intros Hv. unfold REQUIRED. rewrite !elem_of_cons, elem_of_nil.
  intros [->|[->|[->|[->|[]]]]]; unfold field, record_of;
    repeat match goal with
    | |- context [bool_decide (?a = ?b)] =>
        let t := eval vm_compute in (bool_decide (a = b)) in
        change (bool_decide (a = b)) with t
    end; cbn [name author version description default]; by rewrite Hv.
Qed.

(** ** File names and URLs *)

(** Where [.py] occurs in a name only as its extension, the icon file is
    the name with that extension exchanged. *)
Lemma icon_file_of_extension_only stem :
  find (stem ++ str ".py") (str ".py") = Some (length stem) →
  icon_file_of (stem ++ str ".py") = stem ++ str ".png".
Proof.
  unfold icon_file_of, replace. induction stem as [|c t IH]; intros Hf.
  - reflexivity.
  - cbn [app replace_aux]. cbn [app find] in Hf.
    destruct (startswith (c :: t ++ str ".py") (str ".py")); [done|].
    f_equal. apply IH.
    destruct (find (t ++ str ".py") (str ".py")); [|done].
    simpl in Hf. congruence.
Qed.

(** The download URL is the base, the plugin directory and the name; the
    icon URL is the base, the icon directory and the icon file. *)
Lemma record_urls filename content :
  download_url (record_of filename content)
  = BASE_URL ++ PLUGIN_DIR ++ str "/" ++ filename
  ∧ icon_url (record_of filename content)
    = BASE_URL ++ ICON_DIR ++ str "/"
      ++ replace filename (str ".py") (str ".png").
Proof. done. Qed.

(** The icon files for the four plugins of the repository. *)
Lemma repository_icon_files :
  map icon_file_of
    [str "CurrencyConverter.py"; str "Grapher.py"; str "function_analyzer.py";
     str "unit_converter_extension.py"]
  = [str "CurrencyConverter.png"; str "Grapher.png";
     str "function_analyzer.png"; str "unit_converter_extension.png"].
Proof. vm_compute. reflexivity. Qed.

(** ** Where the scan looks *)

Lemma clear_before_suffix m pre rest :
  clear_before (m ++ pre) rest = true → clear_before pre rest = true.
Proof.
  induction m as [|c m IH]; [done|]. cbn [app clear_before].
  intros [_ H]%andb_true_iff. by apply IH.
Qed.

(** A text that no earlier match runs into is scanned from its start. *)
Lemma findall_clear_before pre rest :
  clear_before pre rest = true →
  ∃ l, findall metadata_pattern (pre ++ rest)
       = l ++ findall metadata_pattern rest.
Proof.
  remember (length pre) as n eqn:Hn. revert pre Hn.
  induction n as [n IH] using lt_wf_ind. intros pre -> Hc.
  destruct pre as [|c pre]; [by exists []|].
  pose proof Hc as Hall.
  rewrite findall_eq. cbn [clear_before] in Hc.
  apply andb_true_iff in Hc as [Hc0 Hc]. rewrite match_at_metadata in Hc0.
  destruct (match_spec ((c :: pre) ++ rest)) as [[[k v] r]|] eqn:E.
  - apply Nat.leb_le in Hc0.
    pose proof (match_spec_shorter _ _ _ _ E) as Hlt.
    apply match_spec_Some in E as (_ & _ & ws1 & ws2 & q1 & q2 & E).
    apply app_eq_app in E as [m [[E1 E2]|[E1 E2]]].
    + (* the match ends inside [pre] *)
      assert (clear_before m rest = true) as Hm.
      { apply (clear_before_suffix (assignment k ws1 ws2 q1 v q2)).
        by rewrite <- E1. }
      assert (length m < length (c :: pre))%nat as Hlen.
      { rewrite E1, length_app. unfold assignment, marker.
        rewrite !length_app. simpl. lia. }
      destruct (IH _ Hlen m eq_refl Hm) as [l Hl].
      exists ((k, v) :: l). rewrite E2, Hl. done.
    + (* the match ends where [rest] starts *)
      assert (m = []) as ->.
      { apply (f_equal length) in E2. rewrite length_app in E2.
        destruct m; [done | simpl in E2; lia]. }
      simpl in E2. subst r. by exists [(k, v)].
  - assert (length pre < length (c :: pre))%nat as Hlen by (simpl; lia).
    destruct (IH _ Hlen pre eq_refl Hc) as [l Hl]. by exists l.
Qed.

(** A match that no earlier match runs into is reported, and the scan
    resumes after it. *)
Lemma counted_at_reported content k i :
  counted_at content k i = true →
  ∃ l v after,
    match_at metadata_pattern (drop i content) = Some (k, v, after)
    ∧ findall metadata_pattern content
      = l ++ (k, v) :: findall metadata_pattern after.
Proof.
  unfold counted_at, matches_field_at. intros [Hm Hc]%andb_true_iff.
  destruct (match_at metadata_pattern (drop i content))
    as [[[k' v] after]|] eqn:E; [|done].
  apply bool_decide_eq_true in Hm as ->.
  destruct (findall_clear_before _ _ Hc) as [l Hl].
  rewrite take_drop, (findall_eq (drop i content)) in Hl.
  rewrite match_at_metadata in E. rewrite E in Hl.
  exists l, v, after. split; [done|]. exact Hl.
Qed.

Lemma has_assignment_reported content k :
  has_assignment content k = true →
  k ∈ (findall metadata_pattern content).*1.
Proof.
  unfold has_assignment. intros (i & _ & Hi)%existsb_exists.
  destruct (counted_at_reported _ _ _ Hi) as (l & v & after & _ & ->).
  rewrite fmap_app. apply elem_of_app. right. by left.
Qed.

(** After the latest place where the pattern matches for a field, the scan
    reports nothing for that field. *)
Lemma latest_at_no_later content k i v after :
  match_at metadata_pattern (drop i content) = Some (k, v, after) →
  latest_at content k i = true →
  k ∉ (findall metadata_pattern after).*1.
Proof.
  intros Hm Hl Hin. rewrite match_at_metadata in Hm.
  apply list_elem_of_fmap in Hin as ([k' v'] & Hk & Hin). cbn in Hk. subst k'.
  apply findall_elem in Hin as (pre & rest & r & -> & E).
  pose proof (match_spec_shorter _ _ _ _ Hm) as Hlt.
  pose proof (match_spec_shorter _ _ _ _ E) as Hlt'.
  apply match_spec_Some in Hm as (_ & _ & ws1 & ws2 & q1 & q2 & Hd).
  set (a := assignment k ws1 ws2 q1 v q2) in *.
  assert (drop (i + length (a ++ pre)) content = rest) as Hj.
  { rewrite <- drop_drop, Hd, app_assoc. apply drop_app_length. }
  assert (length (drop i content) = length a + length pre + length rest)%nat
    as Hlen by (by rewrite Hd, !length_app, Nat.add_assoc).
  rewrite length_drop in Hlen.
  assert (0 < length a)%nat as Ha.
  { rewrite Hd, !length_app in Hlt. lia. }
  unfold latest_at in Hl. rewrite forallb_forall in Hl.
  specialize (Hl (i + length (a ++ pre))%nat).
  unfold matches_field_at in Hl. rewrite Hj, match_at_metadata, E in Hl.
  rewrite bool_decide_eq_true_2 in Hl by done.
  assert (negb true = true); [|done]. apply Hl, in_seq.
  rewrite length_app. lia.
Qed.

(** ** Occurrences of a marker *)

Lemma occurrences_from_elem i pre rest sub :
  startswith rest sub = true →
  (i + length pre)%nat ∈ occurrences_from i (pre ++ rest) sub.
Proof.
  intros Hs. revert i. induction pre as [|c pre IH]; intros i.
  - rewrite Nat.add_0_r. destruct rest; simpl; rewrite Hs; by left.
  - cbn [app occurrences_from length]. apply elem_of_app. right.
    rewrite <- Nat.add_succ_comm. apply IH.
Qed.

Lemma match_spec_startswith s k v r :
  match_spec s = Some (k, v, r) → startswith s (marker k) = true.
Proof.
  intros H. apply match_spec_Some in H as (_ & _ & ws1 & ws2 & q1 & q2 & ->).
  unfold startswith, assignment. by rewrite <- !app_assoc, strip_prefix_app.
Qed.

(** ** Hexadecimal digits and surrogates *)

Lemma land_15 x : N.land x 15 = x mod 16.
Proof. exact (N.land_ones x 4). Qed.

Lemma land_1023 x : N.land x 1023 = x mod 1024.
Proof. exact (N.land_ones x 10). Qed.

Lemma hex_val_digit d : d < 16 → hex_val (hex_digit d) = Some d.
Proof.
  intros Hd. unfold hex_val, hex_digit.
  destruct (N.ltb_spec d 10).
  - assert ((48 <=? 48 + d) && (48 + d <=? 57) = true) as ->.
    { apply andb_true_iff. split; apply N.leb_le; lia. }
    f_equal. lia.
  - assert ((48 <=? 87 + d) && (87 + d <=? 57) = false) as ->.
    { apply andb_false_iff. right. apply N.leb_gt. lia. }
    assert ((97 <=? 87 + d) && (87 + d <=? 102) = true) as ->.
    { apply andb_true_iff. split; apply N.leb_le; lia. }
    f_equal. lia.
Qed.

Lemma nibbles n :
  n < 65536 →
  ((n / 4096 mod 16 * 16 + n / 256 mod 16) * 16 + n / 16 mod 16) * 16
  + n mod 16 = n.
Proof. intros. zify. Z.to_euclidean_division_equations. lia. Qed.

Lemma decode_hex4 n r : n < 65536 → decode_uXXXX (hex4 n ++ r) = Some (n, r).
Proof.
  intros Hn. unfold hex4, decode_uXXXX. cbn [app].
  rewrite !land_15, !N.shiftr_div_pow2.
  rewrite !hex_val_digit by (by apply N.mod_lt).
  cbn [mbind option_bind]. do 2 f_equal.
  change (2 ^ 12) with 4096. change (2 ^ 8) with 256. change (2 ^ 4) with 16.
  by apply nibbles.
Qed.

(** [a | b] is [a + b] where [a] has no bit among the low ten. *)
Lemma lor_low_ten a x :
  N.land a 1023 = 0 → N.lor a (N.land x 1023) = a + x mod 1024.
Proof.
  intros Ha. rewrite <- land_1023.
  assert (N.land a (N.land x 1023) = 0) as H0.
  { rewrite (N.land_comm x), N.land_assoc, Ha. apply N.land_0_l. }
  rewrite <- (N.lxor_lor _ _ H0). symmetry. by apply N.add_nocarry_lxor.
Qed.


Lemma high_of_range c : 55296 ≤ high_of c ≤ 56319.
Proof.
  unfold high_of. rewrite lor_low_ten by done.
  assert (N.shiftr (c - 65536) 10 mod 1024 < 1024) as H by (by apply N.mod_lt).
  revert H. generalize (N.shiftr (c - 65536) 10 mod 1024). lia.
Qed.

Lemma low_of_range c : 56320 ≤ low_of c ≤ 57343.
Proof.
  unfold low_of. rewrite lor_low_ten by done.
  assert ((c - 65536) mod 1024 < 1024) as H by (by apply N.mod_lt).
  revert H. generalize ((c - 65536) mod 1024). lia.
Qed.

Lemma combine_high_low c :
  65536 ≤ c → c < 1114112 → combine_surrogates (high_of c) (low_of c) = c.
Proof.
  intros Hc1 Hc2. unfold combine_surrogates, high_of, low_of.
  rewrite !lor_low_ten by done.
  rewrite (N.add_comm 55296), (N.add_comm 56320), !N.add_sub.
  rewrite <- (land_1023 (c - 65536)), lor_low_ten.
  - rewrite N.shiftl_mul_pow2, N.shiftr_div_pow2.
    change (2 ^ 10) with 1024. zify. Z.to_euclidean_division_equations. lia.
  - rewrite land_1023, N.shiftl_mul_pow2. change (2 ^ 10) with 1024.
    apply N.Div0.mod_mul.
Qed.

(** ** Strings written and read back *)

Lemma read_back_cons c t :
  is_high_surrogate c = false →
  read_back (c :: t) = read_back_char c :: read_back t.
Proof. intros H. cbn [read_back]. rewrite H. by destruct t. Qed.

Lemma read_back_cons_other c c2 t :
  is_low_surrogate c2 = false →
  read_back (c :: c2 :: t) = read_back_char c :: read_back (c2 :: t).
Proof. intros H. cbn [read_back]. rewrite H, andb_false_r. done. Qed.

Lemma read_back_cons_pair c c2 t :
  is_high_surrogate c = true → is_low_surrogate c2 = true →
  read_back (c :: c2 :: t) = combine_surrogates c c2 :: read_back t.
Proof. intros H1 H2. cbn [read_back]. by rewrite H1, H2. Qed.

Lemma read_back_char_small c : c < 65536 → read_back_char c = c.
Proof. intros H. unfold read_back_char. by apply N.ltb_lt in H as ->. Qed.

Lemma escape_char_shape c : escape_shape c (escape_char c).
Proof.
  unfold escape_char.
  destruct (N.eqb_spec c 34) as [->|?]; [by apply (shape_letter 34 34)|].
  destruct (N.eqb_spec c 92) as [->|?]; [by apply (shape_letter 92 92)|].
  destruct (N.eqb_spec c 10) as [->|?]; [by apply (shape_letter 10 110)|].
  destruct (N.eqb_spec c 13) as [->|?]; [by apply (shape_letter 13 114)|].
  destruct (N.eqb_spec c 9) as [->|?]; [by apply (shape_letter 9 116)|].
  destruct (N.eqb_spec c 8) as [->|?]; [by apply (shape_letter 8 98)|].
  destruct (N.eqb_spec c 12) as [->|?]; [by apply (shape_letter 12 102)|].
  destruct (N.leb_spec 32 c); [destruct (N.leb_spec c 126)|]; cbn [andb].
  - apply shape_plain; [by apply N.eqb_neq.. | by apply N.ltb_ge | lia].
  - destruct (N.ltb_spec c 65536); [by apply shape_u | by apply shape_pair].
  - destruct (N.ltb_spec c 65536); [by apply shape_u | by apply shape_pair].
Qed.

Lemma small_not_surrogate c :
  c < 128 → is_high_surrogate c = false ∧ is_low_surrogate c = false.
Proof.
  intros H. unfold is_high_surrogate, is_low_surrogate.
  assert ((55296 <=? c) = false) as -> by (apply N.leb_gt; lia).
  assert ((56320 <=? c) = false) as -> by (apply N.leb_gt; lia). done.
Qed.

Lemma high_of_is_high c :
  is_high_surrogate (high_of c) = true ∧ is_low_surrogate (high_of c) = false
  ∧ high_of c < 65536.
Proof.
  pose proof (high_of_range c) as [H1 H2].
  unfold is_high_surrogate, is_low_surrogate. repeat split.
  - apply andb_true_iff. split; by apply N.leb_le.
  - apply andb_false_iff. left. apply N.leb_gt. lia.
  - lia.
Qed.

Lemma low_of_is_low c :
  is_low_surrogate (low_of c) = true ∧ low_of c < 65536.
Proof.
  pose proof (low_of_range c) as [H1 H2]. unfold is_low_surrogate. split.
  - apply andb_true_iff. split; by apply N.leb_le.
  - lia.
Qed.

Lemma big_not_surrogate c :
  65536 ≤ c → is_high_surrogate c = false ∧ is_low_surrogate c = false.
Proof.
  intros H. unfold is_high_surrogate, is_low_surrogate.
  assert ((c <=? 56319) = false) as -> by (apply N.leb_gt; lia).
  assert ((c <=? 57343) = false) as -> by (apply N.leb_gt; lia).
  by rewrite !andb_false_r.
Qed.

Lemma startswith_u a t :
  startswith (a :: t) [92; 117]
  = (92 =? a) && match t with b :: _ => 117 =? b | [] => false end.
Proof.
  unfold startswith. cbn [strip_prefix]. destruct (92 =? a); [|done].
  destruct t as [|b t]; [done|]. by destruct (117 =? b).
Qed.

(** The text written for a string, up to the closing quote, is read back
    as [read_back] tells. *)
Lemma scanstring_escaped n : ∀ s rest fuel,
  (length s ≤ n)%nat →
  (length (flat_map escape_char s) < fuel)%nat →
  scanstring fuel (flat_map escape_char s ++ 34 :: rest)
  = Some (read_back s, rest).
Proof.
  induction n as [|n IH]; intros s rest fuel Hn Hf.
  { destruct s; [|simpl in Hn; lia]. destruct fuel; [simpl in Hf; lia|]. done. }
  destruct s as [|c s1]; [destruct fuel; [simpl in Hf; lia|]; done|].
  cbn [flat_map] in *. rewrite length_app in Hf. simpl in Hn.
  destruct fuel as [|f]; [lia|].
  destruct (escape_char_shape c) as [e He Hu Hc|H34 H92 H32 Hc|Hc|Hc].
  - (* a one-letter escape *)
    cbn [app scanstring length] in *. change (92 =? 34) with false.
    change (92 =? 92) with true. cbn match. rewrite He, Hu. cbn [mbind option_bind].
    rewrite IH by lia. cbn [mbind option_bind].
    destruct (small_not_surrogate c Hc) as [Hh _].
    rewrite read_back_cons, read_back_char_small by (done || lia). done.
  - (* the character itself *)
    cbn [app scanstring length] in *. rewrite H34, H92, H32.
    rewrite IH by lia. cbn [mbind option_bind].
    destruct (small_not_surrogate c Hc) as [Hh _].
    rewrite read_back_cons, read_back_char_small by (done || lia). done.
  - (* one escape of four digits *)
    unfold escape_u in *. cbn [app scanstring length] in *.
    change (92 =? 34) with false. change (92 =? 92) with true.
    change (117 =? 117) with true. cbn match.
    rewrite <- app_assoc, decode_hex4 by done. cbn [mbind option_bind].
    assert (scanstring f (flat_map escape_char s1 ++ 34 :: rest)
            = Some (read_back s1, rest)) as Hsingle by (apply IH; lia).
    destruct (is_high_surrogate c) eqn:Hh; cbn [andb].
    2:{ rewrite Hsingle. cbn [mbind option_bind].
        rewrite read_back_cons, read_back_char_small by done. done. }
    destruct s1 as [|c2 s2].
    { cbn [flat_map app]. rewrite startswith_u. change (92 =? 34) with false.
      cbn [andb]. cbn [flat_map app] in Hsingle. rewrite Hsingle.
      cbn [mbind option_bind]. cbn [read_back].
      by rewrite read_back_char_small. }
    cbn [flat_map] in *. rewrite <- app_assoc in *. rewrite length_app in Hf.
    destruct (escape_char_shape c2) as [e He Hu Hc2|H34 H92 H32 Hc2|Hc2|Hc2].
    + cbn [app] in *. rewrite startswith_u, (N.eqb_sym 117), He, andb_false_r.
      rewrite Hsingle. cbn [mbind option_bind].
      destruct (small_not_surrogate c2 Hc2) as [_ Hl].
      rewrite read_back_cons_other, read_back_char_small by done. done.
    + cbn [app] in *. rewrite startswith_u, (N.eqb_sym 92), H92. cbn [andb].
      rewrite Hsingle. cbn [mbind option_bind].
      destruct (small_not_surrogate c2 Hc2) as [_ Hl].
      rewrite read_back_cons_other, read_back_char_small by done. done.
    + unfold escape_u in *. cbn [app] in *. rewrite startswith_u.
      change (92 =? 92) with true. change (117 =? 117) with true.
      cbn [andb drop]. rewrite drop_0. rewrite decode_hex4 by done. cbn [mbind option_bind].
      destruct (is_low_surrogate c2) eqn:Hl.
      * rewrite IH by (simpl in *; lia). cbn [mbind option_bind].
        by rewrite read_back_cons_pair.
      * rewrite Hsingle. cbn [mbind option_bind].
        rewrite read_back_cons_other, read_back_char_small by done. done.
    + unfold escape_u in *. rewrite <- ?app_assoc in *. cbn [app] in *.
      rewrite startswith_u.
      change (92 =? 92) with true. change (117 =? 117) with true.
      cbn [andb drop]. rewrite drop_0.
      destruct (high_of_is_high c2) as (_ & Hnl & Hlt).
      rewrite decode_hex4 by done. cbn [mbind option_bind].
      rewrite Hnl, Hsingle. cbn [mbind option_bind].
      destruct (big_not_surrogate c2 Hc2) as [_ Hl].
      rewrite read_back_cons_other, read_back_char_small by done. done.
  - (* a pair of escapes *)
    unfold escape_u in *. cbn [app scanstring length] in *.
    change (92 =? 34) with false. change (92 =? 92) with true.
    change (117 =? 117) with true. cbn match.
    destruct (high_of_is_high c) as (Hh & _ & Hlt).
    destruct (low_of_is_low c) as (Hl & Hlt').
    rewrite <- !app_assoc, decode_hex4 by done. cbn [mbind option_bind].
    rewrite Hh. cbn [app]. rewrite startswith_u.
    change (92 =? 92) with true. change (117 =? 117) with true.
    cbn [andb drop]. rewrite drop_0.
    rewrite decode_hex4 by done. cbn [mbind option_bind]. rewrite Hl.
    rewrite IH by (rewrite length_app in Hf; simpl in *; lia).
    cbn [mbind option_bind].
    destruct (big_not_surrogate c Hc) as [Hnh _].
    rewrite read_back_cons by done. unfold read_back_char.
    by apply N.ltb_ge in Hc as ->.
Qed.

Lemma read_back_scalar s : scalar_text s = true → read_back s = s.
Proof.
  induction s as [|c t IH]; [done|]. cbn [scalar_text forallb].
  intros [[Hc Hh%negb_true_iff]%andb_true_iff Ht]%andb_true_iff.
  rewrite read_back_cons, IH by done. f_equal. unfold read_back_char.
  destruct (N.ltb_spec c 65536); [done|].
  apply combine_high_low; [done | by apply N.ltb_lt].
Qed.

(** ** Values written and read back *)

Lemma json_induction (P : json → Prop) :
  (∀ s, P (JStr s)) →
  (∀ items, Forall P items → P (JArr items)) →
  (∀ members, Forall (fun kv => P kv.2) members → P (JObj members)) →
  ∀ v, P v.
Proof.
  intros Hs Ha Ho. fix IH 1. intros [s|items|members].
  - apply Hs.
  - apply Ha. induction items as [|x items IHl]; constructor; [apply IH | exact IHl].
  - apply Ho. induction members as [|[k x] members IHl]; constructor;
      [apply IH | exact IHl].
Qed.

Lemma dumps_array level x xs :
  dumps level (JArr (x :: xs))
  = 91 :: newline_indent (S level) ++ dumps (S level) x
    ++ dumps_items (S level) xs ++ newline_indent level ++ [93].
Proof.
  cbn [dumps str list_ascii_of_string map app]. do 3 f_equal.
  f_equal. induction xs as [|y ys IH]; [done|].
  cbn [dumps_items flat_map]. rewrite <- !app_assoc. do 3 f_equal. exact IH.
Qed.

Lemma dumps_object level k x kvs :
  dumps level (JObj ((k, x) :: kvs))
  = 123 :: newline_indent (S level) ++ 34 :: flat_map escape_char k
    ++ 34 :: 58 :: 32 :: dumps (S level) x
    ++ dumps_members (S level) kvs ++ newline_indent level ++ [125].
Proof.
  cbn [dumps str list_ascii_of_string map app]. unfold encode_basestring_ascii.
  cbn [app]. do 3 f_equal. rewrite <- !app_assoc. cbn [app]. do 5 f_equal.
  f_equal. induction kvs as [|[k' y] kvs IH]; [done|].
  cbn [dumps_members flat_map fst snd]. unfold encode_basestring_ascii.
  cbn [app str list_ascii_of_string map]. rewrite <- !app_assoc. cbn [app].
  do 3 f_equal. rewrite <- !app_assoc. cbn [app]. do 5 f_equal. exact IH.
Qed.

Lemma skip_ws_newline_indent level s :
  skip_ws (newline_indent level ++ s) = skip_ws s.
Proof.
  unfold newline_indent. cbn [app skip_ws]. change (is_json_ws NEWLINE) with true.
  cbn match. induction (2 * level)%nat as [|n IH]; [done|]. exact IH.
Qed.

(** A written value starts with a quote, a bracket or a brace. *)
Lemma dumps_head level v :
  ∃ c t, dumps level v = c :: t ∧ is_json_ws c = false
         ∧ (c =? 93) = false ∧ (c =? 125) = false.
Proof.
  destruct v as [s|[|x xs]|[|[k x] kvs]].
  - by exists 34, (flat_map escape_char s ++ [34]).
  - by exists 91, [93].
  - rewrite dumps_array. by eexists 91, _.
  - by exists 123, [125].
  - rewrite dumps_object. by eexists 123, _.
Qed.

Lemma skip_ws_dumps level v rest :
  skip_ws (dumps level v ++ rest) = dumps level v ++ rest.
Proof.
  destruct (dumps_head level v) as (c & t & -> & Hc & _).
  cbn [app skip_ws]. by rewrite Hc.
Qed.

Lemma parse_items_dumps xs :
  Forall reads_back xs → ∀ x, reads_back x → ∀ level rest fuel,
  (length (dumps (S level) x ++ dumps_items (S level) xs) < fuel)%nat →
  parse_items fuel
    (dumps (S level) x ++ dumps_items (S level) xs
     ++ newline_indent level ++ 93 :: rest)
  = Some (map (json_map read_back) (x :: xs), rest).
Proof.
  induction 1 as [|y ys Hy _ IH]; intros x Hx level rest fuel Hf.
  - destruct fuel as [|n]; [lia|]. cbn [parse_items dumps_items flat_map app] in *.
    rewrite app_nil_r in Hf. rewrite Hx by lia. cbn [mbind option_bind].
    rewrite skip_ws_newline_indent. cbn [skip_ws].
    change (is_json_ws 93) with false. cbn match.
    change (93 =? 93) with true. done.
  - destruct fuel as [|n]; [lia|]. cbn [parse_items].
    rewrite length_app in Hf. rewrite Hx by lia. cbn [mbind option_bind].
    cbn [dumps_items flat_map] in *. fold (dumps_items (S level) ys) in *.
    rewrite <- !app_assoc in *. cbn [str list_ascii_of_string map app skip_ws] in *.
    change (is_json_ws (N_of_ascii ","%char)) with false. cbn match.
    change (N_of_ascii ","%char =? 93) with false.
    change (N_of_ascii ","%char =? 44) with true. cbn match.
    rewrite skip_ws_newline_indent, skip_ws_dumps.
    rewrite IH; [done | done |].
    simpl in Hf. rewrite !length_app in *. lia.
Qed.

Lemma parse_members_dumps kvs :
  Forall (fun kv => reads_back kv.2) kvs → ∀ k x, reads_back x →
  ∀ level rest fuel,
  (length (flat_map escape_char k ++ 34%N :: 58%N :: 32%N :: dumps (S level) x
           ++ dumps_members (S level) kvs) < fuel)%nat →
  parse_members fuel
    (flat_map escape_char k ++ 34 :: 58 :: 32 :: dumps (S level) x
     ++ dumps_members (S level) kvs ++ newline_indent level ++ 125 :: rest)
  = Some (map (fun kv => (read_back kv.1, json_map read_back kv.2))
              ((k, x) :: kvs), rest).
Proof.
  induction 1 as [|[k2 y] kvs Hy _ IH]; intros k x Hx level rest fuel Hf.
  - destruct fuel as [|n]; [lia|]. cbn [parse_members dumps_members flat_map] in *.
    rewrite scanstring_escaped with (n := length k)
      by (rewrite ?length_app; simpl; lia).
    cbn [mbind option_bind skip_ws].
    change (is_json_ws 58) with false. cbn match.
    change (58 =? 58) with true. cbn match. cbn [skip_ws app].
    change (is_json_ws 32) with true. cbn match.
    rewrite !length_app in Hf. simpl in Hf. rewrite app_nil_r in Hf.
    rewrite skip_ws_dumps, Hx by lia. cbn [mbind option_bind app].
    rewrite skip_ws_newline_indent. cbn [skip_ws].
    change (is_json_ws 125) with false. cbn match.
    change (125 =? 125) with true. done.
  - destruct fuel as [|n]; [lia|]. cbn [parse_members].
    rewrite scanstring_escaped with (n := length k)
      by (rewrite ?length_app; simpl; lia).
    cbn [mbind option_bind skip_ws].
    change (is_json_ws 58) with false. cbn match.
    change (58 =? 58) with true. cbn match. cbn [skip_ws app].
    change (is_json_ws 32) with true. cbn match.
    rewrite !length_app in Hf. simpl in Hf. rewrite !length_app in Hf.
    rewrite skip_ws_dumps, Hx by lia. cbn [mbind option_bind].
    cbn [dumps_members flat_map fst snd] in *.
    fold (dumps_members (S level) kvs) in *. unfold encode_basestring_ascii in *.
    rewrite <- !app_assoc in *.
    cbn [str list_ascii_of_string map app skip_ws] in *.
    change (is_json_ws (N_of_ascii ","%char)) with false. cbn match.
    change (N_of_ascii ","%char =? 125) with false.
    change (N_of_ascii ","%char =? 44) with true. cbn match.
    rewrite skip_ws_newline_indent. cbn [skip_ws].
    change (is_json_ws DQUOTE) with false. cbn match.
    change (DQUOTE =? 34) with true. cbn match.
    rewrite <- !app_assoc. cbn [app].
    change (N_of_ascii ":"%char) with 58. change (N_of_ascii " "%char) with 32.
    change DQUOTE with 34 in *.
    rewrite (IH k2 y Hy level rest n); [done|].
    simpl in Hf. rewrite !length_app in *. simpl in *.
    rewrite ?length_app in *. simpl in *. lia.
Qed.

Lemma dumps_reads_back v : reads_back v.
Proof.
  induction v as [s|items IH|members IH] using json_induction;
    intros level rest fuel Hf.
  - cbn [dumps json_map] in *. unfold encode_basestring_ascii in *.
    destruct fuel as [|n]; [simpl in Hf; lia|].
    cbn [app parse_value]. change (DQUOTE =? 34) with true. cbn match.
    rewrite <- app_assoc. cbn [app].
    rewrite scanstring_escaped with (n := length s)
      by (rewrite ?length_app; simpl; lia). done.
  - destruct items as [|x xs].
    + destruct fuel as [|n]; [simpl in Hf; lia|]. done.
    + apply Forall_cons in IH as [Hx Hxs].
      rewrite dumps_array in *. destruct fuel as [|n]; [simpl in Hf; lia|].
      cbn [app parse_value]. change (91 =? 34) with false.
      change (91 =? 91) with true. cbn match.
      rewrite <- !app_assoc. rewrite skip_ws_newline_indent, skip_ws_dumps.
      destruct (dumps_head (S level) x) as (c & t & E & _ & Hc & _).
      pose proof (parse_items_dumps xs Hxs x Hx level rest n) as Hp.
      rewrite E in *. cbn [app] in *. rewrite Hc.
      rewrite Hp; [done|]. simpl in Hf. rewrite !length_app in *.
      simpl in *. rewrite ?length_app in *. lia.
  - destruct members as [|[k x] kvs].
    + destruct fuel as [|n]; [simpl in Hf; lia|]. done.
    + apply Forall_cons in IH as [Hx Hkvs]. cbn [snd] in Hx.
      rewrite dumps_object in *. destruct fuel as [|n]; [simpl in Hf; lia|].
      cbn [app parse_value]. change (123 =? 34) with false.
      change (123 =? 91) with false. change (123 =? 123) with true. cbn match.
      rewrite <- !app_assoc. rewrite skip_ws_newline_indent. cbn [app skip_ws].
      change (is_json_ws 34) with false. cbn match.
      change (34 =? 125) with false. change (34 =? 34) with true. cbn match.
      rewrite <- !app_assoc. cbn [app]. rewrite <- !app_assoc. cbn [app].
      rewrite (parse_members_dumps kvs Hkvs k x Hx level rest n); [done|].
      simpl in Hf. rewrite !length_app in *.
      simpl in *. rewrite ?length_app in *. simpl in *.
      rewrite ?length_app in *. lia.
Qed.

(** Reading what was written gives the value back, its strings read
    back. *)
Lemma loads_dumps v : loads (dumps 0 v) = Some (json_map read_back v).
Proof.
  unfold loads. pose proof (skip_ws_dumps 0 v []) as Hs.
  rewrite app_nil_r in Hs. rewrite Hs.
  pose proof (dumps_reads_back v 0%nat [] (S (length (dumps 0 v)))) as Hp.
  rewrite app_nil_r in Hp. rewrite Hp by lia. done.
Qed.

Lemma loads_dumps_string s :
  scalar_text s = true → loads (dumps 0 (JStr s)) = Some (JStr s).
Proof. intros H. rewrite loads_dumps. cbn [json_map]. by rewrite read_back_scalar. Qed.

(** ** The count as a decimal numeral *)

Lemma digits_of_value fuel : ∀ n acc,
  (N.to_nat n < fuel)%nat →
  fold_left (fun a c => 10 * a + (c - 48)) (digits_of fuel n acc) 0
  = fold_left (fun a c => 10 * a + (c - 48)) acc n
  ∧ (forallb is_digit acc = true →
     forallb is_digit (digits_of fuel n acc) = true).
Proof.
  induction fuel as [|fuel IH]; intros n acc Hf; [lia|].
  cbn [digits_of].
  assert (n mod 10 < 10) as Hm by (by apply N.mod_lt).
  assert (is_digit (48 + n mod 10) = true) as Hd.
  { unfold is_digit. apply andb_true_iff.
    revert Hm. generalize (n mod 10). intros d Hd.
    split; apply N.leb_le; lia. }
  assert (48 + n mod 10 - 48 = n mod 10) as Hsub
    by (by rewrite N.add_comm, N.add_sub).
  pose proof (N.div_mod n 10 ltac:(done)) as Hdm.
  destruct (N.eqb_spec (n / 10) 0) as [Hz|Hnz].
  - cbn [fold_left forallb]. rewrite Hsub, Hd. split; [|done].
    f_equal. rewrite Hz in Hdm. revert Hdm. generalize (n mod 10). lia.
  - assert (n / 10 < n) as Hlt.
    { apply N.div_lt; [|done]. destruct (N.eq_dec n 0) as [->|]; [done | lia]. }
    destruct (IH (n / 10) ((48 + n mod 10) :: acc)) as [IH1 IH2].
    { revert Hlt. generalize (n / 10). lia. }
    split.
    + rewrite IH1. cbn [fold_left]. rewrite Hsub. f_equal.
      revert Hdm. generalize (n / 10) (n mod 10). lia.
    + intros Hacc. apply IH2. cbn [forallb]. by rewrite Hd.
Qed.

Lemma digits_of_head fuel : ∀ n acc,
  (N.to_nat n < fuel)%nat → n ≠ 0 →
  hd 48 (digits_of fuel n acc) ≠ 48.
Proof.
  induction fuel as [|fuel IH]; intros n acc Hf Hn; [lia|].
  cbn [digits_of].
  pose proof (N.div_mod n 10 ltac:(done)) as Hdm.
  destruct (N.eqb_spec (n / 10) 0) as [Hz|Hnz].
  - cbn [hd]. rewrite Hz in Hdm. revert Hdm. generalize (n mod 10). lia.
  - apply IH; [|done].
    assert (n / 10 < n) as Hlt by (apply N.div_lt; lia).
    revert Hlt. generalize (n / 10). lia.
Qed.

(** [str(n)] is the decimal numeral of [n]: digits only, no leading zero,
    and read as a number it gives [n]. *)
Lemma repr_nat_numeral n :
  forallb is_digit (repr_nat n) = true
  ∧ int_of (repr_nat n) = N.of_nat n
  ∧ (repr_nat n = [48] ∨ hd 48 (repr_nat n) ≠ 48).
Proof.
  unfold repr_nat, int_of.
  destruct (digits_of_value (S n) (N.of_nat n) []) as [H1 H2]; [lia|].
  split; [by apply H2|]. split; [exact H1|].
  destruct n as [|n]; [by left|]. right. apply digits_of_head; lia.
Qed.

(** * The claims *)

(** C1, as the code has it: for a file of the plugin directory whose name
    ends in [.py] and whose text holds an assignment to each of the four
    fields at a place that no earlier match of the pattern runs into, the
    manifest that the run writes holds exactly one record for that file,
    and the name, author, version and description of that record are the
    values extracted from the text. *)
Theorem one_record_per_file_with_four_assignments w names filename content :
  dirs (fs w) !! PLUGIN_DIR = Some names →
  NoDup names →
  readable (fs w) names = true →
  OUTPUT_FILE ∉ locked (fs w) →
  filename ∈ names →
  endswith filename (str ".py") = true →
  content_of (fs w) filename = Some content →
  Forall (fun k => has_assignment content k = true) REQUIRED →
  ∃ manifest r,
    main w = (Ok tt, world_after w manifest)
    ∧ records_for filename manifest = [r]
    ∧ meta_matches_of content !! F_NAME = Some (name r)
    ∧ meta_matches_of content !! F_AUTHOR = Some (author r)
    ∧ meta_matches_of content !! F_VERSION = Some (version r)
    ∧ meta_matches_of content !! F_DESCRIPTION = Some (description r).
Proof.
  intros Hd Hnd Hr Hl Hin He Hc Ha.
  assert (Forall (fun k => k ∈ (findall metadata_pattern content).*1) REQUIRED)
    as Hq.
  { eapply Forall_impl; [exact Ha|]. intros k. apply has_assignment_reported. }
  apply Forall_required in Hq.
  exists (expected_manifest (fs w) names), (record_of filename content).
  split; [by apply main_succeeds|]. split.
  - rewrite records_for_expected by done.
    rewrite decide_True by (by rewrite (qualifying_true _ _ content)).
    unfold record_for. by rewrite Hc.
  - unfold qualifies, REQUIRED in Hq. cbn [forallb] in Hq.
    rewrite !andb_true_iff, !contains_true in Hq.
    destruct Hq as ([n Hn] & [a Ha'] & [v Hv] & [d Hd'] & _).
    unfold record_of. cbn [name author version description].
    by rewrite Hn, Ha', Hv, Hd'.
Qed.

Lemma one_record_per_file_with_four_assignments_witness :
  ∃ manifest r,
    main sample_world = (Ok tt, world_after sample_world manifest)
    ∧ records_for (str "CurrencyConverter.py") manifest = [r]
    ∧ meta_matches_of currency_converter !! F_NAME = Some (name r)
    ∧ meta_matches_of currency_converter !! F_AUTHOR = Some (author r)
    ∧ meta_matches_of currency_converter !! F_VERSION = Some (version r)
    ∧ meta_matches_of currency_converter !! F_DESCRIPTION = Some (description r).
Proof.
  apply (one_record_per_file_with_four_assignments sample_world
           sample_names
           (str "CurrencyConverter.py") currency_converter).
  - vm_compute. reflexivity.
  - apply (bool_decide_unpack _). vm_compute. exact I.
  - vm_compute. reflexivity.
  - apply (bool_decide_unpack _). vm_compute. exact I.
  - apply (bool_decide_unpack _). vm_compute. exact I.
  - vm_compute. reflexivity.
  - vm_compute. reflexivity.
  - apply (bool_decide_unpack _). vm_compute. exact I.
Defined.

(** C1 fails as stated: the text [swallowed_file] of the entry
    [Swallowed.py] holds an assignment to each of the four fields, and the
    pattern matches at the place of each (places 0, 19, 44 and 71); the
    assignment to the author stands inside the value of the name, the scan
    does not report it, and the manifest that the run writes has no record
    for the file. *)
Lemma four_assignments_without_a_record :
  str "Swallowed.py" ∈ overlap_names
  ∧ endswith (str "Swallowed.py") (str ".py") = true
  ∧ content_of overlap_fs (str "Swallowed.py") = Some swallowed_file
  ∧ fst <$> match_at metadata_pattern (drop 0 swallowed_file)
    = Some (F_NAME, str "__plugin_author__ = ")
  ∧ fst <$> match_at metadata_pattern (drop 19 swallowed_file)
    = Some (F_AUTHOR, str "x")
  ∧ fst <$> match_at metadata_pattern (drop 44 swallowed_file)
    = Some (F_VERSION, str "1.0")
  ∧ fst <$> match_at metadata_pattern (drop 71 swallowed_file)
    = Some (F_DESCRIPTION, str "Draw graphs")
  ∧ has_assignment swallowed_file F_AUTHOR = false
  ∧ qualifies swallowed_file = false
  ∧ ∃ manifest,
      main overlap_world = (Ok tt, world_after overlap_world manifest)
      ∧ records_for (str "Swallowed.py") manifest = [].
Proof.
  split; [apply (bool_decide_unpack _); vm_compute; exact I|].
  do 8 (split; [vm_compute; reflexivity|]).
  exists (expected_manifest overlap_fs overlap_names). split.
  - apply (main_succeeds overlap_world overlap_names).
    + vm_compute. reflexivity.
    + vm_compute. reflexivity.
    + apply (bool_decide_unpack _). vm_compute. exact I.
  - vm_compute. reflexivity.
Qed.

(** C2: for the file name [my.pytools.py] the icon file of the record is
    [my.pngtools.png]: both occurrences of [.py] are replaced, not only the
    extension; the download URL is the base, the plugin directory and the
    file name. *)
Theorem icon_file_replaces_every_py :
  ∃ r,
    process_file dotted_name [] sample_world = (Ok [r], sample_world)
    ∧ download_url r = BASE_URL ++ str "plugins/my.pytools.py"
    ∧ icon_url r = BASE_URL ++ str "icons/my.pngtools.png"
    ∧ icon_url r ≠ BASE_URL ++ str "icons/my.pytools.png".
Proof.
  exists (record_of dotted_name currency_converter).
  split; [|split; [|split]]; [vm_compute; reflexivity..|].
  vm_compute. discriminate.
Qed.

(** C3: a [.py] file in which one of the four fields has no match of the
    pattern gives no record in the manifest; the loop passes it by without
    raising or printing anything, and the run goes on to write the manifest
    and the summary. *)
Theorem file_missing_a_field_is_skipped w names filename content k :
  dirs (fs w) !! PLUGIN_DIR = Some names →
  readable (fs w) names = true →
  OUTPUT_FILE ∉ locked (fs w) →
  filename ∈ names →
  endswith filename (str ".py") = true →
  content_of (fs w) filename = Some content →
  k ∈ REQUIRED →
  k ∉ (findall metadata_pattern content).*1 →
  ∃ manifest,
    main w = (Ok tt, world_after w manifest)
    ∧ records_for filename manifest = []
    ∧ ∀ plugins_data, process_file filename plugins_data w = (Ok plugins_data, w).
Proof.
  intros Hd Hr Hl Hin He Hc Hk Hn.
  assert (qualifies content = false) as Hq by (apply qualifies_false; eauto).
  exists (expected_manifest (fs w) names).
  split; [by apply main_succeeds|]. split.
  - unfold records_for, expected_manifest.
    apply filter_none, Forall_forall.
    intros r [f [-> Hf]]%list_elem_of_fmap.
    apply list_elem_of_filter in Hf as [Hf _].
    intros E%download_url_of_inj. subst f.
    rewrite (qualifying_true _ _ content) in Hf by done. congruence.
  - intros acc. by eapply process_file_skipped.
Qed.

Lemma file_missing_a_field_is_skipped_witness :
  ∃ manifest,
    main sample_world = (Ok tt, world_after sample_world manifest)
    ∧ records_for (str "Grapher.py") manifest = []
    ∧ ∀ plugins_data,
        process_file (str "Grapher.py") plugins_data sample_world
        = (Ok plugins_data, sample_world).
Proof.
  apply (file_missing_a_field_is_skipped sample_world
           sample_names
           (str "Grapher.py") three_fields F_VERSION).
  - vm_compute. reflexivity.
  - vm_compute. reflexivity.
  - apply (bool_decide_unpack _). vm_compute. exact I.
  - apply (bool_decide_unpack _). vm_compute. exact I.
  - vm_compute. reflexivity.
  - vm_compute. reflexivity.
  - apply (bool_decide_unpack _). vm_compute. exact I.
  - apply (bool_decide_unpack _). vm_compute. exact I.
Defined.

(** C4: when a [.py] entry of the listing cannot be read, the run ends
    with the exception and the world is as before: the output file is not
    written and nothing is printed. A run never leaves a part of a
    manifest: it either raises with the world untouched, or it returns
    after writing the manifest of all qualifying files. *)
Theorem read_failure_aborts_the_run w names :
  dirs (fs w) !! PLUGIN_DIR = Some names →
  (∀ filename,
     filename ∈ names → endswith filename (str ".py") = true →
     content_of (fs w) filename = None →
     ∃ f, f ∈ names ∧ content_of (fs w) f = None
          ∧ main w = (Raise (OSError (path_join PLUGIN_DIR f)), w))
  ∧ ((∃ e, main w = (Raise e, w))
     ∨ (readable (fs w) names = true
        ∧ main w = (Ok tt, world_after w (expected_manifest (fs w) names)))).
Proof.
  intros Hd. split.
  - intros filename Hin He Hc. by eapply main_read_failure.
  - destruct (readable (fs w) names) eqn:Hr.
    + destruct (decide (OUTPUT_FILE ∈ locked (fs w))) as [Hl|Hl].
      * left. eexists. by eapply main_write_failure.
      * right. split; [done|]. by apply main_succeeds.
    + left. apply readable_false in Hr as (f & Hin & He & Hc).
      destruct (main_read_failure w names f Hd Hin He Hc) as (f' & _ & _ & ->).
      by eexists.
Qed.

Lemma read_failure_aborts_the_run_witness :
  ∃ f, f ∈ [str "CurrencyConverter.py"; str "ghost.py"]
       ∧ content_of ghost_fs f = None
       ∧ main ghost_world = (Raise (OSError (path_join PLUGIN_DIR f)), ghost_world).
Proof.
  refine (proj1 (read_failure_aborts_the_run ghost_world
            [str "CurrencyConverter.py"; str "ghost.py"] _)
            (str "ghost.py") _ _ _).
  - vm_compute. reflexivity.
  - apply (bool_decide_unpack _). vm_compute. exact I.
  - vm_compute. reflexivity.
  - vm_compute. reflexivity.
Defined.

(** C5: after a run, reading the JSON text of the output file gives a
    list. The summary line that the run prints shows, between its fixed
    words, a decimal numeral (digits only, no leading zero); read as a
    number it is the length of that list, and this length is the number of
    qualifying entries of the listing. *)
Theorem manifest_round_trip w names :
  dirs (fs w) !! PLUGIN_DIR = Some names →
  readable (fs w) names = true →
  OUTPUT_FILE ∉ locked (fs w) →
  ∃ w' written items digits,
    main w = (Ok tt, w')
    ∧ files (fs w') !! OUTPUT_FILE = Some written
    ∧ loads written = Some (JArr items)
    ∧ stdout w'
      = stdout w ++ [9989] ++ str " Generated plugins.json with " ++ digits
        ++ str " plugins." ++ [NEWLINE]
    ∧ forallb is_digit digits = true
    ∧ (digits = [48] ∨ hd 48 digits ≠ 48)
    ∧ int_of digits = N.of_nat (length items)
    ∧ length items
      = length (filter (fun f => qualifying (fs w) f = true) names).
Proof.
  intros Hd Hr Hl.
  set (manifest := expected_manifest (fs w) names).
  exists (world_after w manifest), (dumps 0 (manifest_json manifest)),
    (map (json_map read_back) (map plugin_json manifest)),
    (repr_nat (length manifest)).
  destruct (repr_nat_numeral (length manifest)) as (H1 & H2 & H3).
  split; [by apply main_succeeds|].
  split; [apply lookup_insert_eq|].
  split; [apply loads_dumps|].
  rewrite !length_map. split.
  { unfold world_after, summary. cbn [stdout]. by rewrite <- !app_assoc. }
  do 3 (split; [done|]).
  unfold manifest, expected_manifest. by rewrite length_map.
Qed.

Lemma manifest_round_trip_witness :
  ∃ w' written items digits,
    main sample_world = (Ok tt, w')
    ∧ files (fs w') !! OUTPUT_FILE = Some written
    ∧ loads written = Some (JArr items)
    ∧ stdout w'
      = stdout sample_world ++ [9989] ++ str " Generated plugins.json with "
        ++ digits ++ str " plugins." ++ [NEWLINE]
    ∧ forallb is_digit digits = true
    ∧ (digits = [48] ∨ hd 48 digits ≠ 48)
    ∧ int_of digits = N.of_nat (length items)
    ∧ length items
      = length (filter (fun f => qualifying (fs sample_world) f = true)
                  sample_names).
Proof.
  apply (manifest_round_trip sample_world).
  - vm_compute. reflexivity.
  - vm_compute. reflexivity.
  - apply (bool_decide_unpack _). vm_compute. exact I.
Defined.

(** C6: when no entry of the listing qualifies, in particular when the
    listing has no [.py] entry, the output file holds the empty array and
    the summary reports the count 0. *)
Theorem no_qualifying_file_gives_empty_manifest w names :
  dirs (fs w) !! PLUGIN_DIR = Some names →
  readable (fs w) names = true →
  OUTPUT_FILE ∉ locked (fs w) →
  Forall (fun f => qualifying (fs w) f = false) names →
  ∃ w',
    main w = (Ok tt, w')
    ∧ files (fs w') !! OUTPUT_FILE = Some (str "[]")
    ∧ stdout w'
      = stdout w ++ [9989] ++ str " Generated plugins.json with 0 plugins."
        ++ [NEWLINE].
Proof.
  intros Hd Hr Hl Hq.
  assert (expected_manifest (fs w) names = []) as He.
  { unfold expected_manifest.
    replace (filter _ names) with (@nil text); [done|].
    symmetry. apply filter_none. eapply Forall_impl; [exact Hq|].
    intros f Hf. simpl. congruence. }
  eexists. split; [by apply main_succeeds|]. rewrite He. split.
  - apply lookup_insert_eq.
  - reflexivity.
Qed.

Lemma no_qualifying_file_gives_empty_manifest_witness :
  ∃ w',
    main bare_world = (Ok tt, w')
    ∧ files (fs w') !! OUTPUT_FILE = Some (str "[]")
    ∧ stdout w'
      = stdout bare_world ++ [9989]
        ++ str " Generated plugins.json with 0 plugins." ++ [NEWLINE].
Proof.
  apply (no_qualifying_file_gives_empty_manifest bare_world
           [str "notes.txt"; str "Grapher.py"]).
  - vm_compute. reflexivity.
  - vm_compute. reflexivity.
  - apply (bool_decide_unpack _). vm_compute. exact I.
  - apply (bool_decide_unpack _). vm_compute. exact I.
Defined.

(** C7, as the code has it: the extraction looks at the text only. An
    assignment to one of the four fields, at a place that no earlier match
    of the pattern runs into, counts as that field being present, whatever
    surrounds it (a comment, a string literal); the value recorded for the
    field is the value of this assignment unless a later match for the same
    field replaces it. *)
Theorem assignment_counts_where_scan_reaches
    pre k ws1 ws2 q1 c v q2 post :
  k ∈ REQUIRED →
  Forall (fun x => is_space x = true) ws1 →
  Forall (fun x => is_space x = true) ws2 →
  is_quote q1 = true → is_dot c = true →
  Forall (fun x => is_quote x = false ∧ is_dot x = true) v →
  is_quote q2 = true →
  clear_before pre (assignment k ws1 ws2 q1 (c :: v) q2 ++ post) = true →
  is_Some (meta_matches_of
             (pre ++ assignment k ws1 ws2 q1 (c :: v) q2 ++ post) !! k)
  ∧ (k ∉ (findall metadata_pattern post).*1 →
     meta_matches_of
       (pre ++ assignment k ws1 ws2 q1 (c :: v) q2 ++ post) !! k
     = Some (c :: v)).
Proof.
  intros Hk H1 H2 Hq1 Hc Hv Hq2 Hclear.
  destruct (findall_clear_before _ _ Hclear) as [l Hl].
  rewrite (findall_eq (_ ++ post)), match_spec_assignment in Hl by done.
  unfold meta_matches_of. rewrite Hl. split.
  - apply dict_is_Some. rewrite fmap_app. apply elem_of_app. right. by left.
  - intros Hn. by apply dict_last.
Qed.

Lemma assignment_counts_where_scan_reaches_witness :
  is_Some (meta_matches_of
             (str "# " ++ assignment F_NAME (str " ") (str " ") DQUOTE
                            (str "Grapher") DQUOTE
              ++ str " and more") !! F_NAME)
  ∧ (F_NAME ∉ (findall metadata_pattern (str " and more")).*1 →
     meta_matches_of
       (str "# " ++ assignment F_NAME (str " ") (str " ") DQUOTE
                      (str "Grapher") DQUOTE
        ++ str " and more") !! F_NAME
     = Some (str "Grapher")).
Proof.
  apply (assignment_counts_where_scan_reaches (str "# ") F_NAME (str " ")
           (str " ") DQUOTE 71 (str "rapher") DQUOTE (str " and more")).
  - apply (bool_decide_unpack _). vm_compute. exact I.
  - apply (bool_decide_unpack _). vm_compute. exact I.
  - apply (bool_decide_unpack _). vm_compute. exact I.
  - vm_compute. reflexivity.
  - vm_compute. reflexivity.
  - apply (bool_decide_unpack _). vm_compute. exact I.
  - vm_compute. reflexivity.
  - vm_compute. reflexivity.
Defined.

(** C7 fails as stated: in the text [swallowed] an assignment to the
    author stands inside the value of the name; the pattern matches at its
    place, yet the scan reports the name only and the author is absent. *)
Lemma assignment_inside_a_match_is_not_counted :
  swallowed
  = (marker F_NAME ++ str " = " ++ [DQUOTE])
    ++ assignment F_AUTHOR (str " ") (str " ") SQUOTE (str "x") SQUOTE
    ++ [DQUOTE]
  ∧ match_at metadata_pattern
      (assignment F_AUTHOR (str " ") (str " ") SQUOTE (str "x") SQUOTE
       ++ [DQUOTE])
    = Some (F_AUTHOR, str "x", [DQUOTE])
  ∧ findall metadata_pattern swallowed
    = [(F_NAME, str "__plugin_author__ = ")]
  ∧ meta_matches_of swallowed !! F_AUTHOR = None.
Proof. repeat split; vm_compute; reflexivity. Qed.

(** C8: the records of the manifest follow the order of the directory
    listing: the manifest that the run writes is the listing restricted to
    the qualifying entries, one record for each, in that order. *)
Theorem manifest_follows_listing_order w names :
  dirs (fs w) !! PLUGIN_DIR = Some names →
  readable (fs w) names = true →
  OUTPUT_FILE ∉ locked (fs w) →
  ∃ manifest,
    main w = (Ok tt, world_after w manifest)
    ∧ manifest
      = map (record_for (fs w))
            (filter (fun f => qualifying (fs w) f = true) names)
    ∧ map download_url manifest
      = map download_url_of
            (filter (fun f => qualifying (fs w) f = true) names).
Proof.
  intros Hd Hr Hl. exists (expected_manifest (fs w) names).
  split; [by apply main_succeeds|]. split; [done|].
  unfold expected_manifest. rewrite map_map. done.
Qed.

Lemma manifest_follows_listing_order_witness :
  ∃ manifest,
    main sample_world = (Ok tt, world_after sample_world manifest)
    ∧ manifest
      = map (record_for sample_fs)
            (filter (fun f => qualifying sample_fs f = true) sample_names)
    ∧ map download_url manifest
      = map download_url_of
            (filter (fun f => qualifying sample_fs f = true) sample_names).
Proof.
  apply (manifest_follows_listing_order sample_world).
  - vm_compute. reflexivity.
  - vm_compute. reflexivity.
  - apply (bool_decide_unpack _). vm_compute. exact I.
Defined.

(** C9, as the code has it: in a file that gets a record, the latest
    place where the pattern matches for a field gives the value recorded
    for that field, provided no earlier match of the pattern runs into
    that place. *)
Theorem latest_match_wins_where_scan_reaches
    w filename content plugins_data k i v after :
  endswith filename (str ".py") = true →
  content_of (fs w) filename = Some content →
  qualifies content = true →
  match_at metadata_pattern (drop i content) = Some (k, v, after) →
  clear_before (take i content) (drop i content) = true →
  latest_at content k i = true →
  ∃ r,
    process_file filename plugins_data w = (Ok (plugins_data ++ [r]), w)
    ∧ meta_matches_of content !! k = Some v
    ∧ field k r = Some v.
Proof.
  intros He Hc Hq Hm Hclear Hlast.
  destruct (findall_clear_before _ _ Hclear) as [l Hl].
  rewrite take_drop, (findall_eq (drop i content)) in Hl.
  pose proof Hm as Hm'. rewrite match_at_metadata in Hm'. rewrite Hm' in Hl.
  pose proof (latest_at_no_later _ _ _ _ _ Hm Hlast) as Hn.
  exists (record_of filename content).
  split; [by apply process_file_appended|].
  assert (meta_matches_of content !! k = Some v) as Hv.
  { unfold meta_matches_of. rewrite Hl. by apply dict_last. }
  split; [done|].
  apply record_of_field; [done|].
  apply (findall_key_required content).
  rewrite Hl, fmap_app. apply elem_of_app. right. by left.
Qed.

Lemma latest_match_wins_where_scan_reaches_witness :
  ∃ r,
    process_file (str "Twice.py") [] sample_world
    = (Ok ([] ++ [r]), sample_world)
    ∧ meta_matches_of two_versions !! F_VERSION = Some (str "2.0")
    ∧ field F_VERSION r = Some (str "2.0").
Proof.
  apply (latest_match_wins_where_scan_reaches sample_world (str "Twice.py")
           two_versions [] F_VERSION 122 (str "2.0") [NEWLINE]).
  - vm_compute. reflexivity.
  - vm_compute. reflexivity.
  - vm_compute. reflexivity.
  - vm_compute. reflexivity.
  - vm_compute. reflexivity.
  - vm_compute. reflexivity.
Defined.

(** C9 fails as stated: in the text [nested_name] of the entry [Nested.py]
    the pattern matches for the name at place 0 and at place 19, inside
    the value of the first match, and at no later place; the value of the
    latest match is [x], yet the record holds the value of the match at
    place 0. *)
Lemma latest_match_inside_a_match_is_not_recorded :
  endswith (str "Nested.py") (str ".py") = true
  ∧ content_of overlap_fs (str "Nested.py") = Some nested_name
  ∧ fst <$> match_at metadata_pattern (drop 0 nested_name)
    = Some (F_NAME, str "__plugin_name__ = ")
  ∧ fst <$> match_at metadata_pattern (drop 19 nested_name)
    = Some (F_NAME, str "x")
  ∧ latest_at nested_name F_NAME 19 = true
  ∧ ∃ r,
      process_file (str "Nested.py") [] overlap_world
      = (Ok [r], overlap_world)
      ∧ field F_NAME r = Some (str "__plugin_name__ = ")
      ∧ field F_NAME r ≠ Some (str "x").
Proof.
  do 5 (split; [vm_compute; reflexivity|]).
  exists (record_of (str "Nested.py") nested_name). split.
  - apply (process_file_appended (str "Nested.py") nested_name [] overlap_world);
      vm_compute; reflexivity.
  - split; [vm_compute; reflexivity|]. vm_compute. discriminate.
Qed.

(** C10, as the code has it: an assignment of the empty string with no
    further quote character up to the end of its line is not matched by
    the pattern; a file in which this assignment is the only place where
    the left-hand side of the field occurs does not have the field, and
    gives no record. *)
Theorem empty_value_alone_on_its_line_is_not_matched
    w filename plugins_data content pre k ws1 ws2 q1 q2 line post :
  k ∈ REQUIRED →
  Forall (fun x => is_space x = true) ws1 →
  Forall (fun x => is_space x = true) ws2 →
  is_quote q1 = true → is_quote q2 = true →
  Forall (fun x => is_quote x = false) line →
  line_end post = true →
  content = pre ++ marker k ++ ws1 ++ [61] ++ ws2 ++ [q1; q2] ++ line ++ post →
  occurrences content (marker k) = [length pre] →
  endswith filename (str ".py") = true →
  content_of (fs w) filename = Some content →
  match_at metadata_pattern (drop (length pre) content) = None
  ∧ meta_matches_of content !! k = None
  ∧ process_file filename plugins_data w = (Ok plugins_data, w).
Proof.
  intros Hk H1 H2 Hq1 Hq2 Hl Hp -> Hocc He Hc.
  assert (match_spec (marker k ++ ws1 ++ [61] ++ ws2 ++ [q1; q2] ++ line ++ post)
          = None) as Hnone by (by apply match_spec_empty_value).
  assert (k ∉ (findall metadata_pattern
                 (pre ++ marker k ++ ws1 ++ [61] ++ ws2 ++ [q1; q2]
                  ++ line ++ post)).*1) as Hn.
  { intros [[k' v] [Hk' Hin]]%list_elem_of_fmap. cbn [fst] in Hk'. subst k'.
    apply findall_elem in Hin as (pre' & rest' & r & E & Hm).
    pose proof (match_spec_startswith _ _ _ _ Hm) as Hs.
    pose proof (occurrences_from_elem O pre' rest' _ Hs) as Ho.
    rewrite <- E in Ho. unfold occurrences in Hocc. rewrite Hocc in Ho.
    apply list_elem_of_singleton in Ho. rewrite Nat.add_0_l in Ho.
    apply app_inj_1 in E as [-> <-]; [|done]. congruence. }
  split; [|split].
  - by rewrite drop_app_length, match_at_metadata.
  - unfold meta_matches_of. apply eq_None_not_Some. by rewrite dict_is_Some.
  - eapply process_file_skipped; [done..|]. apply qualifies_false. eauto.
Qed.

Lemma empty_value_alone_on_its_line_is_not_matched_witness :
  match_at metadata_pattern (drop 11 empty_name_alone) = None
  ∧ meta_matches_of empty_name_alone !! F_NAME = None
  ∧ process_file (str "Alone.py") [] sample_world = (Ok [], sample_world).
Proof.
  apply (empty_value_alone_on_its_line_is_not_matched sample_world
           (str "Alone.py") [] empty_name_alone (str "# metadata
") F_NAME (str " ") (str " ") DQUOTE DQUOTE (str "  # to do")
           ([NEWLINE] ++ assign F_AUTHOR (str "Ayden")
            ++ assign F_VERSION (str "1.0")
            ++ assign F_DESCRIPTION (str "Draw graphs"))).
  - apply (bool_decide_unpack _). vm_compute. exact I.
  - apply (bool_decide_unpack _). vm_compute. exact I.
  - apply (bool_decide_unpack _). vm_compute. exact I.
  - vm_compute. reflexivity.
  - vm_compute. reflexivity.
  - apply (bool_decide_unpack _). vm_compute. exact I.
  - vm_compute. reflexivity.
  - vm_compute. reflexivity.
  - vm_compute. reflexivity.
  - vm_compute. reflexivity.
  - vm_compute. reflexivity.
Defined.

(** C10 fails as stated: in the text [empty_name] the name is assigned the
    empty string and a comment with an apostrophe follows on the line; the
    pattern matches there, with a value that starts at the closing quote,
    and the file, which has the left-hand side of the name nowhere else,
    gets its record. *)
Lemma empty_value_before_a_quote_is_matched :
  startswith empty_name (marker F_NAME ++ str " = " ++ [DQUOTE; DQUOTE]) = true
  ∧ occurrences empty_name (marker F_NAME) = [O]
  ∧ meta_matches_of empty_name !! F_NAME = Some (DQUOTE :: str "  # the plugin")
  ∧ ∃ r, process_file (str "Empty.py") [] sample_world = (Ok [r], sample_world)
         ∧ name r = DQUOTE :: str "  # the plugin".
Proof.
  split; [|split; [|split]]; [vm_compute; reflexivity..|].
  exists (record_of (str "Empty.py") empty_name).
  split; vm_compute; reflexivity.
Qed.

(** * The scenarios of the specification *)

(** The file [CurrencyConverter.py] with its four assignments. *)
Lemma currency_converter_record :
  process_file (str "CurrencyConverter.py") [] sample_world
  = (Ok [ {| name := str "Money Converter";
             author := str "Ayden";
             version := str "1.1";
             description := str "Convert currencies...";
             icon_url := BASE_URL ++ str "icons/CurrencyConverter.png";
             download_url := BASE_URL ++ str "plugins/CurrencyConverter.py" |} ],
     sample_world).
Proof. vm_compute. reflexivity. Qed.

(** Three of the four fields do not make a record, whichever is missing. *)
Lemma three_of_four_excluded :
  Forall (fun k =>
    qualifies (flat_map (fun k' => assign k' (str "x"))
                 (filter (fun k' => k' ≠ k) REQUIRED)) = false) REQUIRED.
Proof. repeat constructor. Qed.

(** Assignments inside a comment and inside a string literal are found. *)
Lemma in_comment_found :
  findall metadata_pattern in_comment
  = [(F_NAME, str "Grapher"); (F_AUTHOR, str "Ayden")].
Proof. vm_compute. reflexivity. Qed.

(** A listing without [.py] entries needs no file to be readable and gives
    the empty manifest. *)
Lemma no_py_entry_gives_empty_manifest w names :
  dirs (fs w) !! PLUGIN_DIR = Some names →
  OUTPUT_FILE ∉ locked (fs w) →
  Forall (fun f => endswith f (str ".py") = false) names →
  main w = (Ok tt, world_after w []).
Proof.
  intros Hd Hl Hn.
  assert (readable (fs w) names = true) as Hr.
  { apply readable_spec. intros f Hf He.
    rewrite Forall_forall in Hn. rewrite (Hn f Hf) in He. done. }
  rewrite (main_succeeds w names) by done. do 2 f_equal.
  unfold expected_manifest. rewrite filter_none; [done|].
  eapply Forall_impl; [exact Hn|]. intros f Hf. cbn beta. unfold qualifying.
  by rewrite Hf.
Qed.

(** The run on the sample directory: four of the seven entries qualify. *)
Lemma sample_run :
  ∃ w', main sample_world = (Ok tt, w')
        ∧ stdout w'
          = [9989] ++ str " Generated plugins.json with 4 plugins." ++ [NEWLINE]
        ∧ (written ← files (fs w') !! OUTPUT_FILE; loads written)
          = Some (manifest_json
                    [record_of (str "CurrencyConverter.py") currency_converter;
                     record_of (str "Twice.py") two_versions;
                     record_of dotted_name currency_converter;
                     record_of (str "Empty.py") empty_name]).
Proof. eexists. split; [reflexivity|]. split; vm_compute; reflexivity. Qed.

(** * Further properties of the run *)

(** ** The outcome of the loop and of the run *)

Lemma first_unreadable_None w names :
  first_unreadable w names = None ↔ readable w names = true.
Proof.
  induction names as [|f l IH]; [done|]. cbn [first_unreadable readable forallb].
  destruct (endswith f (str ".py")); cbn [andb implb]; [|exact IH].
  destruct (bool_decide (is_Some (content_of w f))); cbn [negb andb]; [exact IH|].
  split; discriminate.
Qed.

Lemma first_unreadable_Some w names f :
  first_unreadable w names = Some f →
  f ∈ names ∧ endswith f (str ".py") = true ∧ content_of w f = None.
Proof.
  induction names as [|f0 l IH]; [done|]. cbn [first_unreadable].
  destruct (endswith f0 (str ".py")) eqn:He; cbn [andb].
  - destruct (bool_decide (is_Some (content_of w f0))) eqn:Hb; cbn [negb].
    + intros (? & ? & ?)%IH. split; [by right | done].
    + intros [= <-]. apply bool_decide_eq_false in Hb.
      rewrite <- eq_None_not_Some in Hb. split; [by left | done].
  - intros (? & ? & ?)%IH. split; [by right | done].
Qed.

Lemma for_each_outcome names acc w :
  for_each names process_file acc w
  = match first_unreadable (fs w) names with
    | None => (Ok (acc ++ expected_manifest (fs w) names), w)
    | Some f => (Raise (OSError (path_join PLUGIN_DIR f)), w)
    end.
Proof.
  revert acc. induction names as [|f l IH]; intros acc.
  - simpl. unfold expected_manifest. by rewrite app_nil_r.
  - cbn [for_each first_unreadable]. unfold mbind, M_bind, bind.
    destruct (endswith f (str ".py")) eqn:He; cbn [andb].
    + destruct (content_of (fs w) f) as [c|] eqn:Hc.
      * rewrite bool_decide_eq_true_2 by eauto. cbn [negb].
        rewrite process_file_qualifying by (rewrite Hc; eauto).
        rewrite IH. destruct (first_unreadable (fs w) l); [done|].
        by rewrite (expected_manifest_cons _ f l), app_assoc.
      * rewrite bool_decide_eq_false_2 by (by intros [? ?]). cbn [negb].
        by rewrite process_file_unreadable.
    + rewrite process_file_other by done. rewrite IH.
      destruct (first_unreadable (fs w) l); [done|].
      rewrite (expected_manifest_cons _ f l). do 2 f_equal.
      unfold expected_manifest at 2. rewrite filter_cons_False; [done|].
      unfold qualifying. by rewrite He.
Qed.

(** A run that returns has listed the directory, read every [.py] entry
    and opened the output file. *)
Lemma main_Ok_inv w w' :
  main w = (Ok tt, w') →
  ∃ names,
    dirs (fs w) !! PLUGIN_DIR = Some names
    ∧ readable (fs w) names = true
    ∧ (OUTPUT_FILE ∉ locked (fs w))
    ∧ w' = world_after w (expected_manifest (fs w) names).
Proof.
  unfold main, mbind, M_bind, bind, listdir.
  destruct (dirs (fs w) !! PLUGIN_DIR) as [names|]; [|done].
  rewrite for_each_outcome.
  destruct (first_unreadable (fs w) names) eqn:Hf; [done|]. cbn [app].
  unfold write_text. destruct (decide (OUTPUT_FILE ∈ locked (fs w))) as [Hl|Hl].
  - by rewrite bool_decide_eq_true_2.
  - rewrite bool_decide_eq_false_2 by done. intros [= <-].
    exists names. by rewrite <- first_unreadable_None.
Qed.

Lemma for_each_Ok_inv names acc w l w' :
  for_each names process_file acc w = (Ok l, w') →
  readable (fs w) names = true
  ∧ l = acc ++ expected_manifest (fs w) names ∧ w' = w.
Proof.
  rewrite for_each_outcome.
  destruct (first_unreadable (fs w) names) eqn:Hf; [done|].
  intros [= <- <-]. by rewrite <- first_unreadable_None.
Qed.

(** X1: a run returns only after every step before the summary has
    succeeded: the plugin directory was listed, every [.py] entry of the
    listing was read, and the output file was opened for writing. The text
    in the output file is then the manifest of the qualifying entries of
    the listing, and the line printed is the summary of their number. *)
Theorem run_returns_only_after_full_scan w w' :
  main w = (Ok tt, w') →
  ∃ names,
    dirs (fs w) !! PLUGIN_DIR = Some names
    ∧ (∀ filename, filename ∈ names → endswith filename (str ".py") = true →
         is_Some (files (fs w) !! path_join PLUGIN_DIR filename))
    ∧ (OUTPUT_FILE ∉ locked (fs w))
    ∧ files (fs w') !! OUTPUT_FILE
      = Some (dumps 0 (manifest_json (expected_manifest (fs w) names)))
    ∧ stdout w'
      = stdout w ++ summary (length (expected_manifest (fs w) names))
        ++ [NEWLINE].
Proof.
  intros (names & Hd & Hr & Hl & ->)%main_Ok_inv. exists names.
  split; [done|]. split; [by apply readable_spec|]. split; [done|].
  split; [apply lookup_insert_eq | done].
Qed.

Lemma run_returns_only_after_full_scan_witness :
  ∃ names,
    dirs (fs sample_world) !! PLUGIN_DIR = Some names
    ∧ (∀ filename, filename ∈ names → endswith filename (str ".py") = true →
         is_Some (files (fs sample_world) !! path_join PLUGIN_DIR filename))
    ∧ (OUTPUT_FILE ∉ locked (fs sample_world))
    ∧ files (fs sample_after) !! OUTPUT_FILE
      = Some (dumps 0 (manifest_json
                         (expected_manifest (fs sample_world) names)))
    ∧ stdout sample_after
      = stdout sample_world
        ++ summary (length (expected_manifest (fs sample_world) names))
        ++ [NEWLINE].
Proof.
  apply (run_returns_only_after_full_scan sample_world sample_after).
  vm_compute. reflexivity.
Defined.

(** X2: no run ends with a [KeyError]: the four lookups are made only
    after the test that all four keys are present. *)
Theorem run_never_raises_KeyError w key : (main w).1 ≠ Raise (KeyError key).
Proof.
  unfold main, mbind, M_bind, bind, listdir.
  destruct (dirs (fs w) !! PLUGIN_DIR) as [names|]; [|done].
  rewrite for_each_outcome.
  destruct (first_unreadable (fs w) names); [done|]. cbn [app].
  unfold write_text. by destruct (bool_decide (OUTPUT_FILE ∈ locked (fs w))).
Qed.

(** ** What a run leaves alone *)

Lemma plugin_path_is_not_output f : path_join PLUGIN_DIR f ≠ OUTPUT_FILE.
Proof.
  unfold path_join, startswith.
  destruct (strip_prefix (str "/") f) as [r|] eqn:E.
  - apply strip_prefix_Some in E as ->. discriminate.
  - change (bool_decide (PLUGIN_DIR = []) || endswith PLUGIN_DIR (str "/"))
      with false. cbn match. discriminate.
Qed.

Lemma content_of_world_after w l f :
  content_of (fs (world_after w l)) f = content_of (fs w) f.
Proof.
  unfold content_of, world_after. cbn [fs files].
  apply lookup_insert_ne. intros E. by apply (plugin_path_is_not_output f).
Qed.

Lemma expected_manifest_ext w1 w2 names :
  (∀ f, content_of w1 f = content_of w2 f) →
  expected_manifest w1 names = expected_manifest w2 names.
Proof.
  intros H. unfold expected_manifest.
  assert (∀ f, qualifying w1 f = qualifying w2 f) as Hq
    by (intros f; unfold qualifying; by rewrite H).
  induction names as [|f l IH]; [done|].
  rewrite !filter_cons, Hq. destruct (decide (qualifying w2 f = true)).
  - cbn [map]. unfold record_for at 1 3. rewrite H. by f_equal.
  - exact IH.
Qed.

Lemma readable_ext w1 w2 names :
  (∀ f, content_of w1 f = content_of w2 f) →
  readable w1 names = readable w2 names.
Proof.
  intros H. unfold readable. induction names as [|f l IH]; [done|].
  cbn [forallb]. by rewrite H, IH.
Qed.

(** X3: a run that returns has changed the content of one file only:
    every path other than the output file has the content it had, and
    every plugin file reads as before. *)
Theorem run_changes_only_the_output_file w w' :
  main w = (Ok tt, w') →
  (∀ path, path ≠ OUTPUT_FILE → files (fs w') !! path = files (fs w) !! path)
  ∧ (∀ filename, content_of (fs w') filename = content_of (fs w) filename).
Proof.
  intros (names & _ & _ & _ & ->)%main_Ok_inv. split.
  - intros path Hp. unfold world_after. cbn [fs files].
    by apply lookup_insert_ne.
  - intros f. apply content_of_world_after.
Qed.

Lemma run_changes_only_the_output_file_witness :
  (∀ path, path ≠ OUTPUT_FILE →
     files (fs sample_after) !! path = files (fs sample_world) !! path)
  ∧ (∀ filename,
       content_of (fs sample_after) filename
       = content_of (fs sample_world) filename).
Proof.
  apply (run_changes_only_the_output_file sample_world sample_after).
  vm_compute. reflexivity.
Defined.

(** X4: a second run, right after a run that returned, returns too, leaves
    the file system as the first run left it (the same manifest is written
    over the old one) and prints the same summary line once more. *)
Theorem rerun_writes_the_same_manifest w w1 :
  main w = (Ok tt, w1) →
  ∃ w2 line,
    main w1 = (Ok tt, w2)
    ∧ fs w2 = fs w1
    ∧ stdout w1 = stdout w ++ line
    ∧ stdout w2 = stdout w1 ++ line.
Proof.
  intros (names & Hd & Hr & Hl & ->)%main_Ok_inv.
  set (m := expected_manifest (fs w) names).
  assert (expected_manifest (fs (world_after w m)) names = m) as Hm.
  { apply expected_manifest_ext. intros f. apply content_of_world_after. }
  exists (world_after (world_after w m) m), (summary (length m) ++ [NEWLINE]).
  split; [|split; [|done]].
  - rewrite (main_succeeds (world_after w m) names); [by rewrite Hm | done | | done].
    rewrite <- Hr. apply readable_ext. intros f. apply content_of_world_after.
  - unfold world_after. cbn [fs files dirs locked]. f_equal.
    apply insert_insert_eq.
Qed.

Lemma rerun_writes_the_same_manifest_witness :
  ∃ w2 line,
    main sample_after = (Ok tt, w2)
    ∧ fs w2 = fs sample_after
    ∧ stdout sample_after = stdout sample_world ++ line
    ∧ stdout w2 = stdout sample_after ++ line.
Proof.
  apply (rerun_writes_the_same_manifest sample_world sample_after).
  vm_compute. reflexivity.
Defined.

(** X5: entries whose names do not end in [.py] play no part: the loop
    over a listing does what the loop over its [.py] entries does, whether
    it returns or raises. *)
Theorem entries_without_py_suffix_are_ignored names plugins_data w :
  for_each names process_file plugins_data w
  = for_each (filter (fun f => endswith f (str ".py") = true) names)
      process_file plugins_data w.
Proof.
  revert plugins_data. induction names as [|f l IH]; intros acc; [done|].
  rewrite filter_cons. destruct (decide (endswith f (str ".py") = true)) as [He|He].
  - cbn [for_each]. unfold mbind, M_bind, bind.
    destruct (process_file f acc w) as [[acc'|e] w0] eqn:E; [|done].
    assert (w0 = w) as ->.
    { destruct (content_of (fs w) f) as [c|] eqn:Hc.
      - rewrite process_file_qualifying in E by (rewrite Hc; eauto). congruence.
      - rewrite process_file_unreadable in E by done. congruence. }
    apply IH.
  - apply not_true_is_false in He. cbn [for_each]. unfold mbind, M_bind, bind.
    rewrite process_file_other by done. apply IH.
Qed.

Lemma filter_length_impl {A} (P Q : A → Prop)
    `{∀ x, Decision (P x)} `{∀ x, Decision (Q x)} (l : list A) :
  (∀ x, P x → Q x) → (length (filter P l) ≤ length (filter Q l))%nat.
Proof.
  intros HPQ. induction l as [|x l IH]; [done|]. rewrite !filter_cons.
  destruct (decide (P x)) as [HP|HP]; destruct (decide (Q x)) as [HQ|HQ];
    simpl; [lia | by destruct HQ; apply HPQ | lia | lia].
Qed.

(** X6: the loop only reads and only appends: whatever the listing, the
    world after the loop is the world before it; when the loop returns, the
    records it was given are still there, in front, followed by at most one
    new record for each [.py] entry; when it raises, the exception is the
    failed reading of one of the [.py] entries. *)
Theorem scan_reads_only_and_appends names plugins_data w :
  (for_each names process_file plugins_data w).2 = w
  ∧ match (for_each names process_file plugins_data w).1 with
    | Ok l =>
        ∃ new, l = plugins_data ++ new
               ∧ (length new
                  ≤ length (filter (fun f => endswith f (str ".py") = true)
                              names))%nat
    | Raise e =>
        ∃ f, f ∈ names ∧ endswith f (str ".py") = true
             ∧ e = OSError (path_join PLUGIN_DIR f)
    end.
Proof.
  rewrite for_each_outcome.
  destruct (first_unreadable (fs w) names) as [f|] eqn:Hf; cbn [fst snd].
  - split; [done|]. apply first_unreadable_Some in Hf as (? & ? & ?).
    by exists f.
  - split; [done|]. exists (expected_manifest (fs w) names). split; [done|].
    unfold expected_manifest. rewrite length_map.
    apply filter_length_impl. intros f. unfold qualifying.
    by intros [? _]%andb_true_iff.
Qed.

(** ** What the pattern accepts *)

Lemma drop_spaces_split s :
  ∃ ws, s = ws ++ drop_spaces s ∧ Forall (fun x => is_space x = true) ws.
Proof.
  induction s as [|c t (ws & IH & Hws)]; simpl; [by exists []|].
  destruct (is_space c) eqn:Hc; [|by exists []].
  exists (c :: ws). split; [simpl; by f_equal | by constructor].
Qed.

Lemma lazy_value_split t v r :
  lazy_value t = Some (v, r) →
  ∃ q, t = v ++ q :: r ∧ is_quote q = true
       ∧ Forall (fun x => is_quote x = false ∧ is_dot x = true) v.
Proof.
  revert v. induction t as [|c t IH]; intros v; simpl; [done|].
  destruct (is_quote c) eqn:Hq; [intros [= <- <-]; by exists c|].
  destruct (is_dot c) eqn:Hd; [|done].
  destruct (lazy_value t) as [[v' r']|]; [|done]. simpl. intros [= <- <-].
  destruct (IH v' eq_refl) as (q & -> & ? & ?). exists q.
  split; [done|]. split; [done|]. by constructor.
Qed.

Lemma match_spec_shape s k v r :
  match_spec s = Some (k, v, r) →
  ∃ ws1 ws2 q1 q2 c v',
    v = c :: v' ∧ s = assignment k ws1 ws2 q1 v q2 ++ r
    ∧ k ∈ REQUIRED
    ∧ Forall (fun x => is_space x = true) ws1
    ∧ Forall (fun x => is_space x = true) ws2
    ∧ is_quote q1 = true ∧ is_quote q2 = true ∧ is_dot c = true
    ∧ Forall (fun x => is_quote x = false ∧ is_dot x = true) v'.
Proof.
  unfold match_spec.
  destruct (strip_prefix (str "__plugin_") s) as [s1|] eqn:H1; [|done].
  apply strip_prefix_Some in H1 as ->. cbn [mbind option_bind].
  destruct (field_of s1) as [[k' s2]|] eqn:H2; [|done].
  apply field_of_Some in H2 as [-> Hk]. cbn [mbind option_bind].
  unfold assigned_value.
  destruct (strip_prefix (str "__") s2) as [s3|] eqn:H3; [|done].
  apply strip_prefix_Some in H3 as ->. cbn [mbind option_bind].
  destruct (drop_spaces_split s3) as (ws1 & E1 & Hws1).
  destruct (drop_spaces s3) as [|e s4]; [done|]. cbn [strip_prefix].
  destruct (N.eqb_spec 61 e) as [<-|]; [|done]. cbn [mbind option_bind].
  destruct (drop_spaces_split s4) as (ws2 & E2 & Hws2).
  destruct (drop_spaces s4) as [|q1 s5]; [done|].
  destruct (is_quote q1) eqn:Hq1; [|done].
  destruct s5 as [|c t]; [done|]. cbn [value_and_rest].
  destruct (is_dot c) eqn:Hc; [|done].
  destruct (lazy_value t) as [[v' r']|] eqn:H5; [|done].
  cbn [mbind option_bind]. intros [= <- <- <-].
  apply lazy_value_split in H5 as (q2 & -> & Hq2 & Hv).
  exists ws1, ws2, q1, q2, c, v'. repeat split; try done.
  rewrite E1, E2. unfold assignment, marker. by rewrite <- !app_assoc.
Qed.

(** X7: the pattern matches at the start of a text exactly when the text
    starts with [__plugin_], one of the four field names, [__], an equals
    sign with any white space (line feeds included) on either side, a quote
    character, a value and a quote character, where the value has at least
    one character, no line feed, and no quote character after its first
    character. The two quote characters need not be the same, and the value
    ends at the nearest quote. *)
Theorem pattern_matches_exactly_assignments s k v r :
  match_at metadata_pattern s = Some (k, v, r)
  ↔ ∃ ws1 ws2 q1 q2 c v',
      v = c :: v' ∧ s = assignment k ws1 ws2 q1 v q2 ++ r
      ∧ k ∈ REQUIRED
      ∧ Forall (fun x => is_space x = true) ws1
      ∧ Forall (fun x => is_space x = true) ws2
      ∧ is_quote q1 = true ∧ is_quote q2 = true ∧ is_dot c = true
      ∧ Forall (fun x => is_quote x = false ∧ is_dot x = true) v'.
Proof.
  rewrite match_at_metadata. split; [apply match_spec_shape|].
  intros (ws1 & ws2 & q1 & q2 & c & v' & -> & -> & ? & ? & ? & ? & ? & ? & ?).
  by apply match_spec_assignment.
Qed.

(** ** The fields of a record *)

Lemma dict_lookup_elem pairs k v : dict pairs !! k = Some v → (k, v) ∈ pairs.
Proof.
  induction pairs as [|[k' v'] pairs IH] using rev_ind.
  - unfold dict. simpl. by rewrite lookup_empty.
  - rewrite dict_snoc. destruct (decide (k' = k)) as [->|Hne].
    + rewrite lookup_insert_eq. intros [= ->]. apply elem_of_app. right. by left.
    + rewrite lookup_insert_ne by done. intros H. apply elem_of_app. left. auto.
Qed.

Lemma is_dot_not_newline (l : text) :
  Forall (fun x => is_dot x = true) l → NEWLINE ∉ l.
Proof.
  intros H Hin. rewrite Forall_forall in H. specialize (H _ Hin). done.
Qed.

(** X8: in every record that the loop produces, the name, the author, the
    version and the description are texts of at least one character,
    without a line feed, and without a quote character after the first
    character. *)
Theorem record_fields_are_single_line
    names w plugins_data w' i r k :
  for_each names process_file [] w = (Ok plugins_data, w') →
  plugins_data !! i = Some r →
  k ∈ REQUIRED →
  ∃ c v, field k r = Some (c :: v)
         ∧ (NEWLINE ∉ c :: v)
         ∧ Forall (fun x => is_quote x = false) v.
Proof.
  intros (_ & -> & _)%for_each_Ok_inv Hi Hk. cbn [app] in Hi.
  apply list_elem_of_lookup_2 in Hi. unfold expected_manifest in Hi.
  apply list_elem_of_fmap in Hi as (f & -> & Hf).
  apply list_elem_of_filter in Hf as [Hq _]. unfold qualifying in Hq.
  apply andb_true_iff in Hq as [_ Hq]. unfold record_for.
  destruct (content_of (fs w) f) as [content|]; [|done]. cbn [default].
  pose proof (proj1 (qualifies_true content) Hq k Hk) as Hkin.
  apply dict_is_Some in Hkin as [v Hv].
  pose proof (dict_lookup_elem _ _ _ Hv) as Hin.
  apply findall_elem in Hin as (pre & rest & after & _ & Hm).
  apply match_spec_shape in Hm
    as (_ & _ & _ & _ & c & v' & -> & _ & _ & _ & _ & _ & _ & Hc & Hv').
  exists c, v'. split; [by apply record_of_field|]. split.
  - apply is_dot_not_newline. constructor; [done|].
    eapply Forall_impl; [exact Hv'|]. by intros x [_ ?].
  - eapply Forall_impl; [exact Hv'|]. by intros x [? _].
Qed.

Lemma record_fields_are_single_line_witness :
  ∃ c v, field F_DESCRIPTION (record_of (str "Twice.py") two_versions)
         = Some (c :: v)
         ∧ (NEWLINE ∉ c :: v)
         ∧ Forall (fun x => is_quote x = false) v.
Proof.
  apply (record_fields_are_single_line sample_names sample_world
           (expected_manifest sample_fs sample_names) sample_world 1%nat
           (record_of (str "Twice.py") two_versions) F_DESCRIPTION).
  - vm_compute. reflexivity.
  - vm_compute. reflexivity.
  - apply (bool_decide_unpack _). vm_compute. exact I.
Defined.

(** ** Icon files and download URLs *)

Lemma startswith_py_app c t :
  startswith (c :: t ++ str ".py") (str ".py") = startswith (c :: t) (str ".py").
Proof.
  unfold startswith. cbn [str list_ascii_of_string map strip_prefix].
  destruct (N_of_ascii "."%char =? c) eqn:Hc; [|done].
  destruct t as [|a t]; [done|]. cbn [app].
  destruct (N_of_ascii "p"%char =? a) eqn:Ha; [|done].
  destruct t as [|b t]; [|cbn [app]; by destruct (N_of_ascii "y"%char =? b)].
  reflexivity.
Qed.

Lemma replace_py_app n : ∀ stem,
  (length stem ≤ n)%nat →
  replace (stem ++ str ".py") (str ".py") (str ".png")
  = replace stem (str ".py") (str ".png") ++ str ".png".
Proof.
  unfold replace. induction n as [|n IH]; intros stem Hn.
  { destruct stem; [reflexivity | simpl in Hn; lia]. }
  destruct stem as [|c t]; [reflexivity|].
  cbn [app replace_aux]. rewrite startswith_py_app.
  destruct (startswith (c :: t) (str ".py")) eqn:Hs.
  - unfold startswith in Hs.
    destruct (strip_prefix (str ".py") (c :: t)) as [t'|] eqn:E; [|done].
    apply strip_prefix_Some in E. injection E as -> ->.
    change (length (str ".py") - 1)%nat with 2%nat.
    cbn [str list_ascii_of_string map app replace_aux].
    do 4 f_equal. apply (IH t'). simpl in Hn. lia.
  - simpl in Hn. cbn [app]. f_equal. apply IH. lia.
Qed.

(** X9: the icon file of a name that ends in [.py] ends in [.png]: it is
    the icon file of the stem followed by [.png]. The occurrences of [.py]
    inside the stem are replaced as well. *)
Theorem icon_file_of_py_name stem :
  icon_file_of (stem ++ str ".py") = icon_file_of stem ++ str ".png".
Proof. unfold icon_file_of. by apply (replace_py_app (length stem)). Qed.

(** X10: for a listing without repeated names, the download URLs of the
    records that the loop produces are pairwise different. *)
Theorem download_urls_are_distinct names w plugins_data w' :
  for_each names process_file [] w = (Ok plugins_data, w') →
  NoDup names →
  NoDup (map download_url plugins_data).
Proof.
  intros (_ & -> & _)%for_each_Ok_inv Hnd. cbn [app].
  unfold expected_manifest. rewrite map_map.
  change (map (fun x => download_url (record_for (fs w) x)))
    with (fmap (M := list) download_url_of).
  apply NoDup_fmap_2; [intros ? ?; apply download_url_of_inj|].
  by apply NoDup_filter.
Qed.

Lemma download_urls_are_distinct_witness :
  NoDup (map download_url (expected_manifest sample_fs sample_names)).
Proof.
  apply (download_urls_are_distinct sample_names sample_world
           (expected_manifest sample_fs sample_names) sample_world).
  - vm_compute. reflexivity.
  - apply (bool_decide_unpack _). vm_compute. exact I.
Defined.

(** ** The text of the output file *)

Lemma hex_digit_printable d : d < 16 → printable (hex_digit d) = true.
Proof.
  intros Hd. unfold printable, hex_digit. apply orb_true_iff. right.
  destruct (N.ltb_spec d 10); apply andb_true_iff; split; apply N.leb_le; lia.
Qed.

Lemma escape_u_printable n : Forall (fun c => printable c = true) (escape_u n).
Proof.
  unfold escape_u, hex4. rewrite !land_15.
  repeat constructor; apply hex_digit_printable; by apply N.mod_lt.
Qed.

Lemma escape_char_printable c :
  Forall (fun x => printable x = true) (escape_char c).
Proof.
  unfold escape_char.
  repeat match goal with
  | |- context [if ?x =? ?y then _ else _] =>
      destruct (x =? y); [by repeat constructor|]
  end.
  destruct ((32 <=? c) && (c <=? 126)) eqn:Hp.
  - constructor; [|done]. unfold printable. by rewrite Hp, orb_true_r.
  - destruct (c <? 65536); [apply escape_u_printable|].
    apply Forall_app. split; apply escape_u_printable.
Qed.

Lemma encode_printable s :
  Forall (fun x => printable x = true) (encode_basestring_ascii s).
Proof.
  unfold encode_basestring_ascii. constructor; [done|].
  apply Forall_app. split; [|by repeat constructor].
  induction s as [|c s IH]; [done|]. cbn [flat_map].
  apply Forall_app. split; [apply escape_char_printable | exact IH].
Qed.

Lemma newline_indent_printable level :
  Forall (fun x => printable x = true) (newline_indent level).
Proof.
  unfold newline_indent. constructor; [done|].
  induction (2 * level)%nat as [|n IH]; [done|]. by constructor.
Qed.

(** Whatever the strings of a value, the text [dumps] writes for it holds
    printable ASCII characters and line feeds only. *)
Lemma dumps_printable v : ∀ level,
  Forall (fun c => printable c = true) (dumps level v).
Proof.
  induction v as [s|items IH|members IH] using json_induction; intros level.
  - apply encode_printable.
  - destruct items as [|x xs]; [by repeat constructor|].
    apply Forall_cons in IH as [Hx Hxs]. rewrite dumps_array.
    constructor; [done|]. rewrite !Forall_app.
    split; [apply newline_indent_printable|]. split; [apply Hx|].
    split; [|split; [apply newline_indent_printable | by repeat constructor]].
    induction Hxs as [|y ys Hy _ IHl]; [done|]. cbn [dumps_items flat_map].
    rewrite !Forall_app. split; [|exact IHl].
    split; [by repeat constructor|].
    split; [apply newline_indent_printable | apply Hy].
  - destruct members as [|[k x] kvs]; [by repeat constructor|].
    apply Forall_cons in IH as [Hx Hkvs]. cbn [snd] in Hx.
    rewrite dumps_object. constructor; [done|]. rewrite !Forall_app.
    split; [apply newline_indent_printable|].
    pose proof (encode_printable k) as Hk. unfold encode_basestring_ascii in Hk.
    apply Forall_cons in Hk as [_ Hk]. apply Forall_app in Hk as [Hk _].
    constructor; [done|]. rewrite !Forall_app. split; [exact Hk|].
    do 3 (constructor; [done|]). rewrite !Forall_app. split; [apply Hx|].
    split; [|split; [apply newline_indent_printable | by repeat constructor]].
    induction Hkvs as [|[k' y] ys Hy _ IHl]; [done|].
    cbn [dumps_members flat_map fst snd].
    rewrite !Forall_app. split; [|exact IHl].
    split; [by repeat constructor|].
    split; [apply newline_indent_printable|].
    split; [apply encode_printable|]. split; [by repeat constructor | apply Hy].
Qed.

(** X11: the output file of a run holds printable ASCII characters and
    line feeds only, whatever the plugin files and their names hold:
    every other character of a field or of a URL is written as an
    escape. *)
Theorem output_file_is_ascii w w' :
  main w = (Ok tt, w') →
  ∃ written,
    files (fs w') !! OUTPUT_FILE = Some written
    ∧ Forall (fun c => printable c = true) written.
Proof.
  intros (names & _ & _ & _ & ->)%main_Ok_inv.
  exists (dumps 0 (manifest_json (expected_manifest (fs w) names))).
  split; [apply lookup_insert_eq | apply dumps_printable].
Qed.

Lemma output_file_is_ascii_witness :
  ∃ written,
    files (fs sample_after) !! OUTPUT_FILE = Some written
    ∧ Forall (fun c => printable c = true) written.
Proof.
  apply (output_file_is_ascii sample_world sample_after).
  vm_compute. reflexivity.
Defined.

(** ** Reading back exactly what was written *)

Lemma json_map_scalar v :
  json_all scalar_text v = true → json_map read_back v = v.
Proof.
  induction v as [s|items IH|members IH] using json_induction;
    cbn [json_all json_map]; intros H.
  - by rewrite read_back_scalar.
  - f_equal. induction IH as [|x xs Hx _ IHl]; [done|].
    cbn [forallb] in H. apply andb_true_iff in H as [H1 H2].
    cbn [map]. by rewrite Hx, IHl.
  - f_equal. induction IH as [|[k x] kvs Hx _ IHl]; [done|].
    cbn [forallb fst snd] in H.
    apply andb_true_iff in H as [[Hk H1]%andb_true_iff H2].
    cbn [map fst snd] in *. by rewrite (read_back_scalar k), Hx, IHl.
Qed.

(** A value whose strings hold code points up to U+10FFFF and no high
    surrogate is read back from the text written for it as the same
    value. *)
Lemma loads_dumps_scalar v :
  json_all scalar_text v = true → loads (dumps 0 v) = Some v.
Proof. intros H. by rewrite loads_dumps, json_map_scalar. Qed.

Lemma scalar_text_app a b :
  scalar_text (a ++ b) = scalar_text a && scalar_text b.
Proof. apply forallb_app. Qed.

Lemma replace_aux_scalar old new skip s :
  scalar_text new = true → scalar_text s = true →
  scalar_text (replace_aux old new skip s) = true.
Proof.
  intros Hnew. revert skip. induction s as [|c t IH]; intros skip Hs; [done|].
  cbn [scalar_text forallb] in Hs. apply andb_true_iff in Hs as [Hc Ht].
  cbn [replace_aux]. destruct skip as [|n]; [|by apply IH].
  destruct (startswith (c :: t) old).
  - rewrite scalar_text_app, Hnew. by apply IH.
  - cbn [scalar_text forallb]. rewrite Hc. by apply IH.
Qed.

(** A value taken from a text is a part of that text. *)
Lemma extracted_value_scalar content k v :
  scalar_text content = true →
  meta_matches_of content !! k = Some v →
  scalar_text v = true.
Proof.
  intros Hs Hv. apply dict_lookup_elem, findall_elem in Hv
    as (pre & rest & r & -> & Hm).
  apply match_spec_Some in Hm as (_ & _ & ws1 & ws2 & q1 & q2 & ->).
  unfold assignment in Hs. rewrite !scalar_text_app in Hs.
  repeat (apply andb_true_iff in Hs as [? Hs] || apply andb_true_iff in Hs as [Hs ?]).
  revert Hs. repeat match goal with H : _ = true |- _ => revert H end.
  rewrite ?andb_true_iff. tauto.
Qed.

Lemma record_of_scalar f content :
  scalar_text f = true → scalar_text content = true →
  json_all scalar_text (plugin_json (record_of f content)) = true.
Proof.
  intros Hf Hc.
  assert (∀ k, scalar_text (default [] (meta_matches_of content !! k)) = true)
    as Hfield.
  { intros k. destruct (meta_matches_of content !! k) as [v|] eqn:E; [|done].
    by apply (extracted_value_scalar content k). }
  unfold plugin_json, record_of.
  cbn [json_all forallb fst snd name author version description icon_url
       download_url].
  rewrite !Hfield. unfold icon_url_of, download_url_of, icon_file_of, replace.
  rewrite !scalar_text_app, Hf, replace_aux_scalar by done. reflexivity.
Qed.

Lemma expected_manifest_scalar w names :
  scalar_inputs w names = true →
  json_all scalar_text (manifest_json (expected_manifest w names)) = true.
Proof.
  unfold manifest_json, expected_manifest. cbn [json_all].
  induction names as [|f l IH]; [done|]. cbn [scalar_inputs forallb].
  intros [[Hf Hc]%andb_true_iff Hl]%andb_true_iff. rewrite filter_cons.
  destruct (decide (qualifying w f = true)) as [Hq|]; [|by apply IH].
  cbn [map forallb]. rewrite IH by done. rewrite andb_true_r.
  unfold record_for. unfold qualifying in Hq.
  apply andb_true_iff in Hq as [_ Hq].
  destruct (content_of w f) as [content|]; [|done].
  by apply record_of_scalar.
Qed.

(** X12: when the names of the listing and the texts of the plugin files
    hold code points up to U+10FFFF and no high surrogate, reading the
    output file back gives the manifest itself: one object for each record
    of the loop, in order, with the six members of the record. *)
Theorem written_manifest_reads_back w names :
  dirs (fs w) !! PLUGIN_DIR = Some names →
  readable (fs w) names = true →
  OUTPUT_FILE ∉ locked (fs w) →
  scalar_inputs (fs w) names = true →
  ∃ w' written plugins_data,
    main w = (Ok tt, w')
    ∧ for_each names process_file [] w = (Ok plugins_data, w)
    ∧ files (fs w') !! OUTPUT_FILE = Some written
    ∧ loads written = Some (JArr (map plugin_json plugins_data)).
Proof.
  intros Hd Hr Hl Hs.
  exists (world_after w (expected_manifest (fs w) names)),
    (dumps 0 (manifest_json (expected_manifest (fs w) names))),
    (expected_manifest (fs w) names).
  split; [by apply main_succeeds|].
  split; [by rewrite for_each_readable|].
  split; [apply lookup_insert_eq|].
  rewrite loads_dumps, json_map_scalar; [done|].
  by apply expected_manifest_scalar.
Qed.

Lemma written_manifest_reads_back_witness :
  ∃ w' written plugins_data,
    main sample_world = (Ok tt, w')
    ∧ for_each sample_names process_file [] sample_world
      = (Ok plugins_data, sample_world)
    ∧ files (fs w') !! OUTPUT_FILE = Some written
    ∧ loads written = Some (JArr (map plugin_json plugins_data)).
Proof.
  apply (written_manifest_reads_back sample_world sample_names).
  - vm_compute. reflexivity.
  - vm_compute. reflexivity.
  - apply (bool_decide_unpack _). vm_compute. exact I.
  - vm_compute. reflexivity.
Defined.

(** ** The count in the summary *)

(** X13: the summary line shows the count as a decimal numeral, between
    fixed words: the characters in that place are digits, and read as a
    number they give the count. *)
Theorem summary_shows_count n :
  ∃ digits,
    summary n
    = [9989] ++ str " Generated plugins.json with " ++ digits
      ++ str " plugins."
    ∧ forallb is_digit digits = true
    ∧ int_of digits = N.of_nat n.
Proof.
  exists (repr_nat n). split; [reflexivity|]. unfold repr_nat, int_of.
  destruct (digits_of_value (S n) (N.of_nat n) []) as [H1 H2]; [lia|].
  split; [by apply H2 | exact H1].
Qed.

(** X14: the summary line tells the count: two counts have the same
    summary line only when they are the same count. *)
Theorem summary_determines_count n m : summary n = summary m ↔ n = m.
Proof.
  split; [|by intros ->]. unfold summary. intros H.
  apply app_inv_head, app_inv_head, app_inv_head, app_inv_head in H.
  apply app_inv_tail in H.
  destruct (digits_of_value (S n) (N.of_nat n) []) as [Hn _]; [lia|].
  destruct (digits_of_value (S m) (N.of_nat m) []) as [Hm _]; [lia|].
  unfold repr_nat in H. rewrite H, Hm in Hn. cbn [fold_left] in Hn. lia.
Qed.

(** ** Texts without a match *)

(** X15: the scan of a text reports nothing exactly when the pattern
    matches at no place of the text. *)
Theorem nothing_found_iff_no_match s :
  findall metadata_pattern s = []
  ↔ ∀ i, match_at metadata_pattern (drop i s) = None.
Proof.
  induction s as [|c t IH].
  - split; [|done]. intros _ i. by rewrite drop_nil.
  - rewrite findall_eq. split.
    + destruct (match_spec (c :: t)) as [[[k v] r]|] eqn:E; [done|].
      intros Ht [|i]; [by rewrite match_at_metadata|]. by apply IH.
    + intros H. pose proof (H O) as H0. rewrite match_at_metadata in H0.
      cbn [drop] in H0. rewrite H0. apply IH. intros i. apply (H (S i)).
Qed.
